(** * ChangeStreamManager: a shallow embedding and its verified properties

    The development follows [src/ChangeStreamManager.ts].  The pure part of
    the manager (field tracking, redaction, depth limiting, checksum) is
    embedded as total functions over a model of JavaScript values; the event
    processor is embedded with explicit state passing (the audit sink and the
    console) and an error type for thrown exceptions; the connection retry
    loop is embedded by well-founded recursion on the attempts that remain;
    the life cycle of the change stream (start, health check, error
    handling, shutdown, process listeners) and the entry point of the
    package are embedded over a trace of the calls the manager makes.

    Conventions of the value model:
    - a number is an integer below 10^21 in magnitude, printed in decimal
      (floating point is not represented);
    - a string is its UTF-8 byte sequence, and [toLowerCase] folds the ASCII
      letters only;
    - an object lists its own enumerable properties in enumeration order;
      properties inherited from [Object.prototype] are not represented;
    - an array is an object of class [ArrayObject] whose property names are
      its indices;
    - an object of another class (a [Date], an [ObjectId]) is given by what
      the manager can observe of it: its own enumerable properties, the
      string its [toJSON] yields, its string form, and whether
      [ObjectId.isValid] accepts it.

    What lies outside the repository is an input of the embedding: the
    current time ([now]), the outcome of each [mongoose.connect] call
    ([connects]) and of the write to the audit log collection ([write_ok]),
    what the server and the driver answer to the calls of the life cycle
    ([Lifecycle.server]) and the state of the connection at a health check.
    SHA-256 is computed, not assumed. *)

From Stdlib Require Import ZArith List String Ascii Lia Bool DecimalString.
From Equations Require Import Equations.
Import ListNotations.

Set Implicit Arguments.
Set Warnings "-register-all".

(* ===================================================================== *)
(** ** SHA-256 (FIPS 180-4), as computed by [createHash('sha256')]        *)
(* ===================================================================== *)

Module SHA256.
Local Open Scope Z_scope.

Definition w32 (x : Z) : Z := x mod 2 ^ 32.
Definition add32 (x y : Z) : Z := w32 (x + y).
Definition rotr (n x : Z) : Z := Z.lor (Z.shiftr x n) (w32 (Z.shiftl x (32 - n))).
Definition shr (n x : Z) : Z := Z.shiftr x n.
Definition not32 (x : Z) : Z := 2 ^ 32 - 1 - x.

Definition Ch (x y z : Z) : Z := Z.lxor (Z.land x y) (Z.land (not32 x) z).
Definition Maj (x y z : Z) : Z := Z.lxor (Z.lxor (Z.land x y) (Z.land x z)) (Z.land y z).
Definition bsig0 (x : Z) : Z := Z.lxor (Z.lxor (rotr 2 x) (rotr 13 x)) (rotr 22 x).
Definition bsig1 (x : Z) : Z := Z.lxor (Z.lxor (rotr 6 x) (rotr 11 x)) (rotr 25 x).
Definition ssig0 (x : Z) : Z := Z.lxor (Z.lxor (rotr 7 x) (rotr 18 x)) (shr 3 x).
Definition ssig1 (x : Z) : Z := Z.lxor (Z.lxor (rotr 17 x) (rotr 19 x)) (shr 10 x).

(** Integer cube root, one bit at a time from the top. *)
Fixpoint icbrt_bits (bits : nat) (n acc : Z) : Z :=
  match bits with
  | O => acc
  | S b => let c := acc + 2 ^ Z.of_nat b in
           icbrt_bits b n (if c * c * c <=? n then c else acc)
  end.

Definition icbrt (n : Z) : Z := icbrt_bits 40 n 0.

(** The first sixty-four primes (trial division up to 18 covers 2..311). *)
Definition primes64 : list Z :=
  filter (fun p => forallb (fun d => negb (p mod d =? 0) || (d =? p))
                     (map Z.of_nat (seq 2 17)))
         (map Z.of_nat (seq 2 310)).

(** Round constants: the first 32 bits of the fractional parts of the cube
    roots of the first 64 primes. *)
Definition K : list Z :=
  Eval vm_compute in map (fun p => w32 (icbrt (p * 2 ^ 96))) primes64.

(** Initial hash value: the same for the square roots of the first 8 primes. *)
Definition H0 : list Z :=
  Eval vm_compute in map (fun p => w32 (Z.sqrt (p * 2 ^ 64))) (firstn 8 primes64).

(** The eight working variables; also the chaining value between blocks. *)
Record state := mkState
  { sa : Z; sb : Z; sc : Z; sd : Z; se : Z; sf : Z; sg : Z; sh : Z }.

Definition init : state :=
  let h i := nth i H0 0 in
  mkState (h 0%nat) (h 1%nat) (h 2%nat) (h 3%nat) (h 4%nat) (h 5%nat) (h 6%nat) (h 7%nat).

Definition round (s : state) (kw : Z * Z) : state :=
  let t1 := add32 (add32 (add32 (add32 (sh s) (bsig1 (se s)))
                                (Ch (se s) (sf s) (sg s))) (fst kw)) (snd kw) in
  let t2 := add32 (bsig0 (sa s)) (Maj (sa s) (sb s) (sc s)) in
  mkState (add32 t1 t2) (sa s) (sb s) (sc s) (add32 (sd s) t1) (se s) (sf s) (sg s).

(** Message schedule: [n] further words appended to the words so far. *)
Fixpoint schedule (n : nat) (W : list Z) : list Z :=
  match n with
  | O => W
  | S n' =>
      let t := List.length W in
      let back i := nth (t - i) W 0 in
      schedule n' (W ++ [add32 (add32 (add32 (ssig1 (back 2%nat)) (back 7%nat))
                                      (ssig0 (back 15%nat))) (back 16%nat)])
  end.

Definition compress (s : state) (block : list Z) : state :=
  let r := fold_left round (combine K (schedule 48 block)) s in
  mkState (add32 (sa s) (sa r)) (add32 (sb s) (sb r)) (add32 (sc s) (sc r))
          (add32 (sd s) (sd r)) (add32 (se s) (se r)) (add32 (sf s) (sf r))
          (add32 (sg s) (sg r)) (add32 (sh s) (sh r)).

Definition be_bytes (n : nat) (x : Z) : list Z :=
  map (fun i => (Z.shiftr x (8 * Z.of_nat i)) mod 256) (rev (seq 0 n)).

Definition pad (msg : list Z) : list Z :=
  let len := Z.of_nat (List.length msg) in
  let zeros := Z.to_nat ((55 - len) mod 64) in
  msg ++ [128] ++ repeat 0 zeros ++ be_bytes 8 (8 * len).

Fixpoint words (n : nat) (bytes : list Z) : list Z :=
  match n, bytes with
  | S n', b0 :: b1 :: b2 :: b3 :: rest =>
      (b0 * 2 ^ 24 + b1 * 2 ^ 16 + b2 * 2 ^ 8 + b3) :: words n' rest
  | _, _ => []
  end.

(** [n] is the number of 64-byte blocks of [bytes]. *)
Fixpoint blocks (n : nat) (bytes : list Z) (s : state) : state :=
  match n with
  | O => s
  | S n' => blocks n' (skipn 64 bytes) (compress s (words 16 (firstn 64 bytes)))
  end.

Definition digest (msg : list Z) : state :=
  let p := pad msg in blocks (List.length p / 64) p init.

Definition hex_digit (d : Z) : ascii :=
  ascii_of_nat (Z.to_nat (if d <? 10 then 48 + d else 87 + d)).

Definition hex8 (x : Z) : string :=
  string_of_list_ascii
    (map (fun i => hex_digit ((Z.shiftr x (4 * Z.of_nat i)) mod 16)) (rev (seq 0 8))).

Definition hex (s : state) : string :=
  (hex8 (sa s) ++ hex8 (sb s) ++ hex8 (sc s) ++ hex8 (sd s) ++
   hex8 (se s) ++ hex8 (sf s) ++ hex8 (sg s) ++ hex8 (sh s))%string.

Definition bytes_of_string (s : string) : list Z :=
  map (fun c => Z.of_nat (nat_of_ascii c)) (list_ascii_of_string s).

(** [createHash('sha256').update(s).digest('hex')] *)
Definition sha256_hex (s : string) : string := hex (digest (bytes_of_string s)).

End SHA256.

(* ===================================================================== *)
(** ** JavaScript values and the built-ins the manager calls              *)
(* ===================================================================== *)

Module JS.

Inductive error : Type :=
| TypeError (msg : string)
| Error (msg : string)
| ValidationError (msg : string).

Inductive result (A : Type) : Type :=
| Ok (a : A)
| Throw (e : error).
Arguments Ok {A} a.
Arguments Throw {A} e.

(** What the manager can observe of an object that is neither a plain object
    nor an array (a [Date], an [ObjectId], ...): the string its [toJSON]
    method returns when it has one, the string [String(obj)] yields, and the
    verdict of [ObjectId.isValid(obj)] of the driver. *)
Record exotic : Type := mkExotic
  { toJSON : option string;
    toStringResult : string;
    isObjectId : bool }.

Inductive objclass : Type :=
| PlainObject
| ArrayObject
| ExoticObject (e : exotic).

Inductive value : Type :=
| VUndefined
| VNull
| VBool (b : bool)
| VNum (n : Z)
| VStr (s : string)
| VObject (cls : objclass) (props : list (string * value)).

Definition props_t : Type := list (string * value).

(** [!!v] *)
Definition truthy (v : value) : bool :=
  match v with
  | VUndefined | VNull => false
  | VBool b => b
  | VNum n => negb (n =? 0)%Z
  | VStr s => negb (String.eqb s EmptyString)
  | VObject _ _ => true
  end.

(** [typeof v === 'object'] *)
Definition typeof_object (v : value) : bool :=
  match v with
  | VNull | VObject _ _ => true
  | _ => false
  end.

(** [a || b] *)
Definition or_else (a b : value) : value := if truthy a then a else b.

(** [v === s] for a string literal [s] *)
Definition strict_eq_str (v : value) (s : string) : bool :=
  match v with
  | VStr t => String.eqb t s
  | _ => false
  end.

Definition Array_isArray (v : value) : bool :=
  match v with
  | VObject ArrayObject _ => true
  | _ => false
  end.

(** [ObjectId.isValid(v)] on a value of type object.  The call sits behind
    [typeof obj !== 'object'], so it is only ever reached with an object. *)
Definition ObjectId_isValid (v : value) : bool :=
  match v with
  | VObject (ExoticObject e) _ => isObjectId e
  | _ => false
  end.

Definition decimal (n : Z) : string := NilZero.string_of_int (Z.to_int n).

Definition index_key (i : nat) : string := decimal (Z.of_nat i).

Fixpoint index_entries (i : nat) (l : list value) : props_t :=
  match l with
  | [] => []
  | v :: tl => (index_key i, v) :: index_entries (S i) tl
  end.

(** The object literal [{ k1: v1, ... }] and the array literal [[v0, v1, ...]]. *)
Definition Obj (props : props_t) : value := VObject PlainObject props.
Definition Arr (l : list value) : value := VObject ArrayObject (index_entries 0 l).

(** [new Date(...)], given by its ISO rendering (what [toJSON] returns) and
    its [toString] rendering; a Date has no own enumerable property. *)
Definition DateObj (iso str : string) : value :=
  VObject (ExoticObject (mkExotic (Some iso) str false)) [].

(** [new ObjectId(hex)], given by its hexadecimal string.  Which own
    properties an [ObjectId] has depends on the version of the driver; they
    play no part where the value is used below and are left out. *)
Definition ObjectIdObj (hex : string) : value :=
  VObject (ExoticObject (mkExotic (Some hex) hex true)) [].

(** Own property lookup; the first entry with the key. *)
Fixpoint lookup {A : Type} (k : string) (props : list (string * A)) : option A :=
  match props with
  | [] => None
  | (k', v) :: tl => if String.eqb k' k then Some v else lookup k tl
  end.

(** [props[k] = v]: overwrite in place, or append a new property. *)
Fixpoint obj_set (k : string) (v : value) (props : props_t) : props_t :=
  match props with
  | [] => [(k, v)]
  | (k', v') :: tl =>
      if String.eqb k' k then (k', v) :: tl else (k', v') :: obj_set k v tl
  end.

(** [Object.keys] of an object with these properties. *)
Definition keys {A : Type} (props : list (string * A)) : list string := map fst props.

(** [Object.entries(v)] of a value that is not null or undefined.  A string
    primitive enumerates its characters. *)
Fixpoint char_entries (i : nat) (s : string) : props_t :=
  match s with
  | EmptyString => []
  | String c tl => (index_key i, VStr (String c EmptyString)) :: char_entries (S i) tl
  end.

Definition Object_entries (v : value) : props_t :=
  match v with
  | VObject _ props => props
  | VStr s => char_entries 0 s
  | _ => []
  end.

(** [Object.fromEntries(entries)] *)
Definition Object_fromEntries (entries : props_t) : value :=
  Obj (fold_left (fun acc kv => obj_set (fst kv) (snd kv) acc) entries []).

(** Member access [v.k] for one of the names the manager reads ([ns],
    [coll], [operationType], ...): none of them is a property of a
    primitive's prototype. *)
Definition get (v : value) (k : string) : result value :=
  match v with
  | VUndefined | VNull =>
      Throw (TypeError ("Cannot read properties of undefined or null, reading " ++ k))
  | VObject _ props =>
      Ok (match lookup k props with Some x => x | None => VUndefined end)
  | _ => Ok VUndefined
  end.

(** Optional chaining [v?.[k]] *)
Definition get_opt (v : value) (k : string) : value :=
  match v with
  | VObject _ props => match lookup k props with Some x => x | None => VUndefined end
  | _ => VUndefined
  end.

(** [String(v)] *)
Fixpoint ToString (v : value) : string :=
  match v with
  | VUndefined => "undefined"
  | VNull => "null"
  | VBool true => "true"
  | VBool false => "false"
  | VNum n => decimal n
  | VStr s => s
  | VObject PlainObject _ => "[object Object]"
  | VObject ArrayObject props =>
      String.concat ","
        (map (fun kv => match snd kv with
                        | VUndefined | VNull => EmptyString
                        | _ => ToString (snd kv)
                        end) props)
  | VObject (ExoticObject e) _ => toStringResult e
  end.

Definition is_upper (c : ascii) : bool :=
  (65 <=? nat_of_ascii c)%nat && (nat_of_ascii c <=? 90)%nat.

Definition lower_char (c : ascii) : ascii :=
  if is_upper c then ascii_of_nat (nat_of_ascii c + 32) else c.

(** [s.toLowerCase()] *)
Fixpoint toLowerCase (s : string) : string :=
  match s with
  | EmptyString => EmptyString
  | String c tl => String (lower_char c) (toLowerCase tl)
  end.

(** [s.includes(sub)] *)
Fixpoint includes (s sub : string) : bool :=
  String.prefix sub s ||
  match s with
  | EmptyString => false
  | String _ tl => includes tl sub
  end.

Definition dquote : string := String (ascii_of_nat 34) EmptyString.
Definition backslash : string := String (ascii_of_nat 92) EmptyString.

Definition hex4 (n : nat) : string :=
  let d i := SHA256.hex_digit (Z.of_nat (n / 16 ^ i) mod 16)%Z in
  String (d 3) (String (d 2) (String (d 1) (String (d 0) EmptyString))).

Definition json_escape_char (c : ascii) : string :=
  let n := nat_of_ascii c in
  if (n =? 34)%nat then backslash ++ dquote
  else if (n =? 92)%nat then backslash ++ backslash
  else if (n =? 8)%nat then backslash ++ "b"
  else if (n =? 9)%nat then backslash ++ "t"
  else if (n =? 10)%nat then backslash ++ "n"
  else if (n =? 12)%nat then backslash ++ "f"
  else if (n =? 13)%nat then backslash ++ "r"
  else if (n <? 32)%nat then backslash ++ "u" ++ hex4 n
  else String c EmptyString.

Fixpoint json_escape (s : string) : string :=
  match s with
  | EmptyString => EmptyString
  | String c tl => json_escape_char c ++ json_escape tl
  end.

Definition json_quote (s : string) : string := dquote ++ json_escape s ++ dquote.

(** [JSON.stringify(v)]; [None] stands for the result [undefined]. *)
Fixpoint JSON_stringify (v : value) : option string :=
  match v with
  | VUndefined => None
  | VNull => Some "null"
  | VBool true => Some "true"
  | VBool false => Some "false"
  | VNum n => Some (decimal n)
  | VStr s => Some (json_quote s)
  | VObject cls props =>
      let member kv :=
        match JSON_stringify (snd kv) with
        | Some s => [json_quote (fst kv) ++ ":" ++ s]
        | None => []
        end in
      let element kv :=
        match JSON_stringify (snd kv) with
        | Some s => s
        | None => "null"
        end in
      match cls with
      | ArrayObject => Some ("[" ++ String.concat "," (map element props) ++ "]")
      | ExoticObject (mkExotic (Some s) _ _) => Some (json_quote s)
      | _ => Some ("{" ++ String.concat "," (flat_map member props) ++ "}")
      end
  end%string.

(** The value found in [v] by following the property names of [path]. *)
Fixpoint at_path (path : list string) (v : value) : option value :=
  match path with
  | [] => Some v
  | k :: rest =>
      match v with
      | VObject _ props =>
          match lookup k props with
          | Some x => at_path rest x
          | None => None
          end
      | _ => None
      end
  end.

(** Well-formedness of the representation: the property names of an object
    are pairwise distinct, at every level. *)
Fixpoint distinct (l : list string) : bool :=
  match l with
  | [] => true
  | k :: tl => negb (existsb (String.eqb k) tl) && distinct tl
  end.

Fixpoint wf (v : value) : bool :=
  match v with
  | VObject _ props => distinct (keys props) && forallb (fun kv => wf (snd kv)) props
  | _ => true
  end.

(** Whether an array occurs in [v]; an object that [ObjectId.isValid] accepts
    is a leaf. *)
Fixpoint has_array (v : value) : bool :=
  match v with
  | VObject cls props =>
      negb (ObjectId_isValid v)
      && (Array_isArray v || existsb (fun kv => has_array (snd kv)) props)
  | _ => false
  end.

(** Data made of primitives, arrays and plain objects only. *)
Fixpoint plain_data (v : value) : bool :=
  match v with
  | VObject (ExoticObject _) _ => false
  | VObject _ props => forallb (fun kv => plain_data (snd kv)) props
  | _ => true
  end.


End JS.

(* ===================================================================== *)
(** ** The manager                                                        *)
(* ===================================================================== *)

Module ChangeStreamManager.
Import JS.

(** [Required<ManagerOptions>] *)
Record ManagerOptions : Type := mkOptions
  { maxReconnectAttempts : Z;
    reconnectDelay : Z;
    maxObjectDepth : Z;
    healthCheckInterval : Z }.

Definition DEFAULT_OPTIONS : ManagerOptions :=
  {| maxReconnectAttempts := 5;
     reconnectDelay := 5000;
     maxObjectDepth := 10;
     healthCheckInterval := 30000 |}.

(** [TrackingConfig]: collection name to the field names to retain. *)
Definition TrackingConfig : Type := list (string * list string).

(** Everything the manager does to the outside, in order. *)
Inductive effect : Type :=
| Connect (ok : bool)
| Sleep (ms : Z)
| ConsoleLog (msg : string)
| ConsoleError (msg : string)
| InitializeAuditLogModel
| StartChangeStream
| SetupEventListeners.

(** The manager's mutable fields, the audit sink's collection and the
    effects performed so far. *)
Record state : Type := mkState
  { reconnectAttempts : Z;
    auditLogModel : bool;
    created : list value;
    audit_logs : list value;
    effects : list effect }.

Definition initial_state : state :=
  {| reconnectAttempts := 0; auditLogModel := false;
     created := []; audit_logs := []; effects := [] |}.

Definition perform (es : list effect) (st : state) : state :=
  {| reconnectAttempts := reconnectAttempts st;
     auditLogModel := auditLogModel st;
     created := created st;
     audit_logs := audit_logs st;
     effects := effects st ++ es |}.

Definition set_reconnectAttempts (n : Z) (st : state) : state :=
  {| reconnectAttempts := n;
     auditLogModel := auditLogModel st;
     created := created st;
     audit_logs := audit_logs st;
     effects := effects st |}.

Definition set_auditLogModel (st : state) : state :=
  {| reconnectAttempts := reconnectAttempts st;
     auditLogModel := true;
     created := created st;
     audit_logs := audit_logs st;
     effects := effects st |}.

Definition record_create (arg : value) (st : state) : state :=
  {| reconnectAttempts := reconnectAttempts st;
     auditLogModel := auditLogModel st;
     created := created st ++ [arg];
     audit_logs := audit_logs st;
     effects := effects st |}.

Definition persist (doc : value) (st : state) : state :=
  {| reconnectAttempts := reconnectAttempts st;
     auditLogModel := auditLogModel st;
     created := created st;
     audit_logs := audit_logs st ++ [doc];
     effects := effects st |}.

(** Computations that read and update the [state] and may throw. *)
Definition M (A : Type) : Type := state -> result A * state.

Definition ret {A} (a : A) : M A := fun st => (Ok a, st).

Definition lift {A} (r : result A) : M A := fun st => (r, st).

Definition bindM {A B} (m : M A) (k : A -> M B) : M B :=
  fun st =>
    match m st with
    | (Ok a, st') => k a st'
    | (Throw e, st') => (Throw e, st')
    end.

Definition try_catch {A} (m : M A) (handler : error -> M A) : M A :=
  fun st =>
    match m st with
    | (Ok a, st') => (Ok a, st')
    | (Throw e, st') => handler e st'
    end.

Definition do (e : effect) : M unit := fun st => (Ok tt, perform [e] st).

(** The outcome of a computation is an exception. *)
Definition thrown {A} (r : result A * state) : Prop :=
  match fst r with
  | Throw _ => True
  | Ok _ => False
  end.

Notation "x <- m ;; k" := (bindM m (fun x => k))
  (at level 61, m at next level, right associativity).
Notation "m ;;; k" := (bindM m (fun _ => k))
  (at level 61, right associativity).

Section Manager.

Variable trackingConfig : TrackingConfig.
Variable sensitiveFields : list string.
Variable options : ManagerOptions.

(** [shouldTrack(collectionName, fieldName)] *)
Definition shouldTrack (collectionName fieldName : string) : bool :=
  if (List.length (keys trackingConfig) =? 0)%nat then true
  else
    match lookup collectionName trackingConfig with
    | None => false
    | Some fields =>
        (List.length fields =? 0)%nat || existsb (String.eqb fieldName) fields
    end.

(** [this.sensitiveFields.some((field) => key.toLowerCase().includes(field))] *)
Definition is_sensitive (key : string) : bool :=
  existsb (fun field => includes (toLowerCase key) field) sensitiveFields.

Definition hash_value (v : value) : value :=
  VStr (SHA256.sha256_hex (ToString v)).

(** The value the sanitizer reaches by walking down [path]: it goes through
    objects that are not identifiers, by keys that are not sensitive. *)
Fixpoint descend (path : list string) (v : value) : option value :=
  match path with
  | [] => Some v
  | k :: rest =>
      if is_sensitive k || ObjectId_isValid v then None
      else
        match v with
        | VObject _ props =>
            match lookup k props with
            | Some x => descend rest x
            | None => None
            end
        | _ => None
        end
  end.

(** [sanitizeAndHashSensitiveData(obj)].  The loop runs over the entries of
    the copy [sanitized] and assigns into it. *)
Fixpoint sanitizeAndHashSensitiveData (obj : value) : value :=
  if negb (truthy obj) || negb (typeof_object obj) || ObjectId_isValid obj then obj
  else
    match obj with
    | VObject _ props =>
        let sanitized := props in
        Obj (fold_left
               (fun (acc : props_t) (kv : string * value) =>
                  let (key, v) := kv in
                  if is_sensitive key then obj_set key (hash_value v) acc
                  else if typeof_object v
                       then obj_set key (sanitizeAndHashSensitiveData v) acc
                       else acc)
               sanitized sanitized)
    | _ => obj
    end.

(** [filterTrackedFields(obj, collectionName)] *)
Definition filterTrackedFields (obj : value) (collectionName : string) : value :=
  if negb (truthy obj) then Obj []
  else Object_fromEntries
         (filter (fun kv => shouldTrack collectionName (fst kv)) (Object_entries obj)).

(** [limitObjectDepth(obj, currentDepth)].  In the [reduce] branch [obj[key]]
    for the key of an entry is that entry's value. *)
Fixpoint limitObjectDepth (obj : value) (currentDepth : Z) : value :=
  if negb (truthy obj) || negb (typeof_object obj)
     || (currentDepth >=? maxObjectDepth options)%Z
  then obj
  else
    match obj with
    | VObject cls props =>
        match cls with
        | ArrayObject =>
            VObject ArrayObject
              (map (fun kv => (fst kv, limitObjectDepth (snd kv) (currentDepth + 1))) props)
        | _ =>
            Obj (fold_left
                   (fun (acc : props_t) (kv : string * value) =>
                      obj_set (fst kv) (limitObjectDepth (snd kv) (currentDepth + 1)) acc)
                   props [])
        end
    | _ => obj
    end.

(** The depths at which [limitObjectDepth] is entered when it is called on
    [obj] at [currentDepth], in call order. *)
Fixpoint limitObjectDepth_calls (obj : value) (currentDepth : Z) : list Z :=
  currentDepth ::
  (if negb (truthy obj) || negb (typeof_object obj)
      || (currentDepth >=? maxObjectDepth options)%Z
   then []
   else
     match obj with
     | VObject _ props =>
         flat_map (fun kv => limitObjectDepth_calls (snd kv) (currentDepth + 1)) props
     | _ => []
     end).

(** [createChecksum(data)]; [update(undefined)] throws. *)
Definition createChecksum (data : value) : result string :=
  match JSON_stringify (limitObjectDepth data 0) with
  | Some s => Ok (SHA256.sha256_hex s)
  | None => Throw (TypeError "The data argument must be of type string")
  end.


(** The part of [auditLogModel.create] that the schema of
    [initializeAuditLogModel] fixes: only declared paths are kept
    ([strict]), the [set] functions of [oldValue] and [newValue] run on the
    values given, and the [required] and [enum] validators run before the
    write.  [write_ok] tells whether the database accepts the write. *)
Definition schema_paths : list string :=
  ["timestamp"; "operationType"; "collectionName"; "documentKey";
   "oldValue"; "newValue"; "updateDescription"; "checksum"]%string.

Definition schema_set (path : string) (v : value) : value :=
  if String.eqb path "oldValue" || String.eqb path "newValue"
  then sanitizeAndHashSensitiveData v
  else v.

Definition schema_cast (auditLog : props_t) : props_t :=
  flat_map (fun path =>
              match lookup path auditLog with
              | Some VUndefined | None => []
              | Some v => [(path, schema_set path v)]
              end) schema_paths.

Definition schema_required (path : string) (doc : props_t) : bool :=
  match lookup path doc with
  | Some VNull | Some VUndefined | None => false
  | Some _ => true
  end.

Definition schema_validate (doc : props_t) : bool :=
  schema_required "timestamp" doc
  && match lookup "operationType"%string doc with
     | Some v => strict_eq_str v "insert" || strict_eq_str v "update"
                 || strict_eq_str v "delete"
     | None => false
     end
  && schema_required "collectionName" doc
  && schema_required "documentKey" doc.

Definition AuditLog_create (write_ok : bool) (auditLog : value) : M unit :=
  fun st =>
    let st := record_create auditLog st in
    let doc := schema_cast (Object_entries auditLog) in
    if negb (schema_validate doc)
    then (Throw (ValidationError "AuditLog validation failed"), st)
    else if write_ok then (Ok tt, persist (Obj doc) st)
    else (Throw (Error "write failed"), st).

(** [processChange(change)].  [now] is the value of [new Date()];
    a rejected promise is the result [Throw]. *)
Definition processChange (now : value) (write_ok : bool) (change : value) : M unit :=
  ns <- lift (get change "ns") ;;
  operationType <- lift (get change "operationType") ;;
  fullDocument <- lift (get change "fullDocument") ;;
  fullDocumentBeforeChange <- lift (get change "fullDocumentBeforeChange") ;;
  documentKey <- lift (get change "documentKey") ;;
  updateDescription <- lift (get change "updateDescription") ;;
  collectionName <- lift (get ns "coll") ;;
  if strict_eq_str collectionName "audit_logs" then ret tt
  else
    let auditLog : props_t :=
      [("timestamp", now);
       ("operationType", operationType);
       ("collectionName", collectionName);
       ("documentKey", documentKey);
       ("updateDescription", or_else updateDescription VNull)]%string in
    (* a property key is the string of the value used as key *)
    let coll := ToString collectionName in
    let switch : option props_t :=
      if strict_eq_str operationType "insert" then
        Some (obj_set "newValue" (filterTrackedFields fullDocument coll) auditLog)
      else if strict_eq_str operationType "update" then
        Some (obj_set "newValue" (filterTrackedFields fullDocument coll)
                (obj_set "oldValue" (filterTrackedFields fullDocumentBeforeChange coll)
                   auditLog))
      else if strict_eq_str operationType "delete" then
        Some (obj_set "oldValue" (filterTrackedFields fullDocumentBeforeChange coll)
                auditLog)
      else None in
    match switch with
    | None => ret tt
    | Some auditLog =>
        checksum <- lift (createChecksum (Obj auditLog)) ;;
        let auditLog := obj_set "checksum" (VStr checksum) auditLog in
        try_catch
          ((fun st =>
              (if auditLogModel st then AuditLog_create write_ok (Obj auditLog) else ret tt) st)
               ;;; do (ConsoleLog ("Change detected in " ++ coll ++ ":")))
          (fun _ => do (ConsoleError "Error saving audit log:"))
    end.

(** [connectDB()].  [connects i] tells whether the [i]-th call of
    [mongoose.connect] succeeds; [i] is the number of calls made so far. *)
Equations? connectDB (connects : nat -> bool) (i : nat) (st : state)
  : result unit * state
  by wf (Z.to_nat (maxReconnectAttempts options - reconnectAttempts st)) lt :=
connectDB connects i st with connects i => {
  | true =>
      (Ok tt,
       set_reconnectAttempts 0
         (perform [Connect true; ConsoleLog "MongoDB connected successfully"] st));
  | false =>
      let st1 := set_reconnectAttempts (reconnectAttempts st + 1)
                   (perform [Connect false; ConsoleError "MongoDB connection error:"] st) in
      match Z_ge_dec (reconnectAttempts st + 1) (maxReconnectAttempts options) with
      | left _ =>
          (Throw (Error ("Max reconnection attempts ("
                         ++ decimal (maxReconnectAttempts options) ++ ") reached")), st1)
      | right _ =>
          connectDB connects (S i) (perform [Sleep (reconnectDelay options)] st1)
      end }.
Proof.
  simpl. lia.
Qed.

(** [initialize()]: the steps after [connectDB] run only when it returns. *)
Definition initialize (connects : nat -> bool) : M unit :=
  (fun st => connectDB connects 0 st) ;;;
  (fun st => (Ok tt, set_auditLogModel (perform [InitializeAuditLogModel] st))) ;;;
  do StartChangeStream ;;;
  do SetupEventListeners.

End Manager.
End ChangeStreamManager.

(* ===================================================================== *)
(** ** The change stream's life cycle                                     *)
(* ===================================================================== *)

(** [startChangeStream], [enablePreAndPostImages], [startHealthCheck],
    [handleChangeStreamError], [gracefulShutdown] and [setupEventListeners].
    What the server and the driver answer is an input ([server]); what the
    manager asks of them, of the console, of the timers and of the process is
    a trace of [action]s.  One call of a method runs from its start to its
    end: two calls that are in flight at the same time are not interleaved. *)

Module Lifecycle.
Import JS ChangeStreamManager.
Local Open Scope string_scope.

(** An error object, by the two properties the manager reads of it. *)
Record failure : Type := mkFailure
  { codeName : string;
    message : string }.

Inductive outcome (A : Type) : Type :=
| Done (a : A)
| Fails (err : failure).
Arguments Done {A} a.
Arguments Fails {A} err.

Inductive action : Type :=
| Log (msg : string)
| Warn (msg : string)
| Err (msg : string)
| ServerStatus
| ReplSetInitiate
| Delay (ms : Z)
| ListCollections
| CollMod (name : string)
| Close (stream : nat) (closed : bool)
| Watch (stream : nat)
| On (stream : nat) (event : string)
| SetInterval (ms : Z)
| SetTimeout (ms : Z)
| CloseConnection
| ProcessOn (event : string)
| Exit (code : Z).

(** The answers of the server and of the driver during one call:
    [serverStatus] tells whether the status document has [repl];
    [listCollections] gives the collection names; [collMod] is asked once
    per collection. *)
Record server : Type := mkServer
  { serverStatus : outcome bool;
    replSetInitiate : outcome unit;
    listCollections : outcome (list string);
    collMod : string -> outcome unit;
    closeStream : outcome unit;
    watch : outcome unit;
    closeConnection : outcome unit }.

(** The field [changeStream] ([None] is [null]; streams are numbered in the
    order they are opened, [streams] counts them) and the trace so far. *)
Record manager : Type := mkManager
  { changeStream : option nat;
    streams : nat;
    trace : list action }.

Definition initial_manager : manager :=
  {| changeStream := None; streams := 0; trace := [] |}.

Definition logged (acts : list action) (m : manager) : manager :=
  {| changeStream := changeStream m;
     streams := streams m;
     trace := trace m ++ acts |}.

Definition L (A : Type) : Type := manager -> outcome A * manager.

Definition done {A} (a : A) : L A := fun m => (Done a, m).

Definition bindL {A B} (c : L A) (k : A -> L B) : L B :=
  fun m =>
    match c m with
    | (Done a, m') => k a m'
    | (Fails err, m') => (Fails err, m')
    end.

Definition catch {A} (body : L A) (handler : failure -> L A) : L A :=
  fun m =>
    match body m with
    | (Done a, m') => (Done a, m')
    | (Fails err, m') => handler err m'
    end.

Definition emit (acts : list action) : L unit := fun m => (Done tt, logged acts m).

(** A call whose answer is awaited. *)
Definition await {A} (a : action) (answer : outcome A) : L A :=
  fun m => (answer, logged [a] m).

Definition resolves {A} (answer : outcome A) : bool :=
  match answer with
  | Done _ => true
  | Fails _ => false
  end.

Notation "c >>= k" := (bindL c k) (at level 58, left associativity).
Notation "c >> k" := (bindL c (fun _ => k)) (at level 58, left associativity).

(** [ManagerOptions], every field of which may be left out, and the merge
    [{ ...DEFAULT_OPTIONS, ...options }] of the constructor. *)
Record GivenOptions : Type := mkGiven
  { given_maxReconnectAttempts : option Z;
    given_reconnectDelay : option Z;
    given_maxObjectDepth : option Z;
    given_healthCheckInterval : option Z }.

Definition merged (given : GivenOptions) : ManagerOptions :=
  let pick (g : option Z) (d : Z) := match g with Some x => x | None => d end in
  {| maxReconnectAttempts :=
       pick (given_maxReconnectAttempts given) (maxReconnectAttempts DEFAULT_OPTIONS);
     reconnectDelay :=
       pick (given_reconnectDelay given) (reconnectDelay DEFAULT_OPTIONS);
     maxObjectDepth :=
       pick (given_maxObjectDepth given) (maxObjectDepth DEFAULT_OPTIONS);
     healthCheckInterval :=
       pick (given_healthCheckInterval given) (healthCheckInterval DEFAULT_OPTIONS) |}.

Section Streams.

Variable trackingConfig : TrackingConfig.
Variable sensitiveFields : list string.
Variable options : ManagerOptions.

(** [enablePreAndPostImages()].  The commands are issued by [map], one per
    collection and in listing order; a rejected one is reported by its
    [catch], after all have been issued. *)
Definition enablePreAndPostImages (srv : server) : L unit :=
  await ListCollections (listCollections srv) >>= fun collections =>
  emit (map CollMod collections) >>
  emit (flat_map (fun name =>
                    match collMod srv name with
                    | Done _ => []
                    | Fails err => [Warn ("Skipping " ++ name ++ ": " ++ message err)]
                    end) collections) >>
  emit [Log "Pre and post images configuration completed."].

(** [startHealthCheck()] *)
Definition startHealthCheck : L unit :=
  emit [SetInterval (healthCheckInterval options)].

(** [if (this.changeStream) await this.changeStream.close()] *)
Definition closeCurrent (srv : server) : L unit :=
  fun m =>
    match changeStream m with
    | Some h => await (Close h (resolves (closeStream srv))) (closeStream srv) m
    | None => (Done tt, m)
    end.

(** [this.changeStream = mongoose.connection.db.watch(...)] *)
Definition openStream (srv : server) : L nat :=
  fun m =>
    match watch srv with
    | Done _ =>
        (Done (streams m),
         {| changeStream := Some (streams m);
            streams := S (streams m);
            trace := trace m ++ [Watch (streams m)] |})
    | Fails err => (Fails err, m)
    end.

(** [startChangeStream()].  A failure of [mongoose.connection.db.admin()]
    is a failure of the [serverStatus] call that follows it. *)
Definition startChangeStream (srv : server) : L unit :=
  catch
    (await ServerStatus (serverStatus srv) >>= fun repl =>
     (if negb repl then
        emit [Err "MongoDB not running as replica set. Attempting to initiate..."] >>
        catch
          (await ReplSetInitiate (replSetInitiate srv) >>
           emit [Log "Replica set initiated. Waiting for initialization...";
                 Delay 5000])
          (fun initError =>
             if String.eqb (codeName initError) "AlreadyInitialized"
             then emit [Warn "Replica set is already initialized. Proceeding..."]
             else fun m => (Fails initError, m))
      else done tt) >>
     enablePreAndPostImages srv >>
     closeCurrent srv >>
     openStream srv >>= fun h =>
     emit [Log "Change stream started. Watching for database changes...";
           On h "change"; On h "error"] >>
     startHealthCheck)
    (fun _ =>
       emit [Err "Error starting change stream:";
             SetTimeout (reconnectDelay options)]).

(** The callback of the interval set by [startHealthCheck]. *)
Definition healthCheck (readyState : Z) (srv : server) : L unit :=
  if negb (readyState =? 1)%Z then
    emit [Warn "MongoDB connection lost. Attempting to reconnect..."] >>
    startChangeStream srv
  else done tt.

(** [handleChangeStreamError(error)].  The promise of [close()] is not
    awaited: its rejection, if any, reaches [console.error] once the method
    has returned. *)
Definition handleChangeStreamError (srv : server) : L unit :=
  emit [Err "Change stream error:"] >>
  (fun m =>
     match changeStream m with
     | Some h => emit [Close h (resolves (closeStream srv))] m
     | None => (Done tt, m)
     end) >>
  emit [SetTimeout (reconnectDelay options)] >>
  (fun m =>
     match changeStream m, closeStream srv with
     | Some _, Fails err => emit [Err (message err)] m
     | _, _ => (Done tt, m)
     end).

Definition newline : string := String (ascii_of_nat 10) EmptyString.

(** [gracefulShutdown(signal)]; nothing runs after [process.exit]. *)
Definition gracefulShutdown (srv : server) (signal : string) : L unit :=
  emit [Log (newline ++ signal ++ " signal received. Starting graceful shutdown...")] >>
  catch
    (closeCurrent srv >>
     await CloseConnection (closeConnection srv) >>
     emit [Log "MongoDB connection closed."; Exit 0])
    (fun _ => emit [Err "Error during graceful shutdown:"; Exit 1]).

(** [setupEventListeners()] *)
Definition signals : list string := ["SIGINT"; "SIGTERM"; "SIGQUIT"].

Definition setupEventListeners : L unit :=
  emit (map ProcessOn signals) >>
  emit [ProcessOn "uncaughtException"] >>
  emit [ProcessOn "unhandledRejection"].

(** The listener that [setupEventListeners] registers for a process event. *)
Definition listener (srv : server) (event : string) : option (L unit) :=
  if existsb (String.eqb event) signals then Some (gracefulShutdown srv event)
  else if String.eqb event "uncaughtException" then
    Some (emit [Err "Uncaught Exception:"] >> gracefulShutdown srv "UNCAUGHT_EXCEPTION")
  else if String.eqb event "unhandledRejection" then
    Some (emit [Err "Unhandled Rejection at:"] >> gracefulShutdown srv "UNHANDLED_REJECTION")
  else None.

Definition action_eqb_ProcessOn (event : string) (a : action) : bool :=
  match a with
  | ProcessOn e => String.eqb e event
  | _ => false
  end.

(** The process emits [event]: the listener runs if one has been registered;
    what the runtime does by default otherwise is not represented. *)
Definition deliver (srv : server) (event : string) (m : manager) : option manager :=
  if existsb (action_eqb_ProcessOn event) (trace m) then
    match listener srv event with
    | Some handler => Some (snd (handler m))
    | None => None
    end
  else None.

(** The stream's [change] listener is [processChange].  The emitter drops
    the promise it returns, so a rejection is reported to the process as
    [unhandledRejection]. *)
Definition on_change (now : value) (write_ok : bool) (srv : server) (change : value)
           (st : state) (m : manager) : state * option manager :=
  match processChange trackingConfig sensitiveFields options now write_ok change st with
  | (Ok _, st') => (st', Some m)
  | (Throw _, st') => (st', deliver srv "unhandledRejection" m)
  end.

(** What happens to the manager after [initialize]: a timer set by
    [SetTimeout] fires, an interval set by [startHealthCheck] fires, or the
    stream emits [error]. *)
Inductive tick : Type :=
| RestartTimer (srv : server)
| HealthCheck (readyState : Z) (srv : server)
| StreamError (srv : server).

Definition fire (t : tick) : L unit :=
  match t with
  | RestartTimer srv => startChangeStream srv
  | HealthCheck readyState srv => healthCheck readyState srv
  | StreamError srv => handleChangeStreamError srv
  end.

Fixpoint run (ticks : list tick) (m : manager) : manager :=
  match ticks with
  | [] => m
  | t :: rest => run rest (snd (fire t m))
  end.

(** [initialize()] with its last two steps spelled out: they run on the
    manager's streams and listeners once [connectDB] has returned. *)
Definition initialize_streams (connects : nat -> bool) (srv : server)
           (st : state) (m : manager) : result unit * state * manager :=
  match initialize options connects st with
  | (Throw e, st') => (Throw e, st', m)
  | (Ok _, st') =>
      match (startChangeStream srv >> setupEventListeners) m with
      | (Done _, m') => (Ok tt, st', m')
      | (Fails err, m') => (Throw (Error (message err)), st', m')
      end
  end.

End Streams.

(** The entry point of the package: the options it passes, and [main()]. *)
Definition OPTIONS : GivenOptions :=
  {| given_maxReconnectAttempts := Some 10%Z;
     given_reconnectDelay := Some 3000%Z;
     given_maxObjectDepth := Some 5%Z;
     given_healthCheckInterval := Some 60000%Z |}.

Definition main (connects : nat -> bool) (srv : server) : state * manager :=
  match initialize_streams (merged OPTIONS) connects srv initial_state initial_manager with
  | (Ok _, st, m) =>
      (st, logged [Log "Change stream manager initialized successfully"] m)
  | (Throw _, st, m) =>
      (st, logged [Err "Failed to initialize change stream manager:"; Exit 1] m)
  end.

(** Whether a call of [startChangeStream] by this manager, with these
    answers, gets through its [try] block. *)
Definition subscribes (srv : server) (m : manager) : bool :=
  match serverStatus srv with
  | Done repl =>
      (repl || match replSetInitiate srv with
               | Done _ => true
               | Fails err => String.eqb (codeName err) "AlreadyInitialized"
               end)
      && resolves (listCollections srv)
      && match changeStream m with
         | Some _ => resolves (closeStream srv)
         | None => true
         end
      && resolves (watch srv)
  | Fails _ => false
  end.

(** Whether [gracefulShutdown] gets past the stream, and the status it
    exits with. *)
Definition stream_closes (srv : server) (m : manager) : bool :=
  match changeStream m with
  | Some _ => resolves (closeStream srv)
  | None => true
  end.

Definition exit_code (srv : server) (m : manager) : Z :=
  if stream_closes srv m && resolves (closeConnection srv) then 0%Z else 1%Z.

(** The process events that [setupEventListeners] listens to, and whether a
    listener for an event has been registered. *)
Definition process_events : list string :=
  ["SIGINT"; "SIGTERM"; "SIGQUIT"; "uncaughtException"; "unhandledRejection"].

Definition registered (event : string) (m : manager) : bool :=
  existsb (action_eqb_ProcessOn event) (trace m).

Definition server_of (t : tick) : server :=
  match t with
  | RestartTimer srv | HealthCheck _ srv | StreamError srv => srv
  end.

(** Counting in a trace. *)
Definition is_Watch (a : action) : bool :=
  match a with Watch _ => true | _ => false end.

Definition is_Close (a : action) : bool :=
  match a with Close _ _ => true | _ => false end.

Definition is_SetInterval (a : action) : bool :=
  match a with SetInterval _ => true | _ => false end.

Definition is_SetTimeout (a : action) : bool :=
  match a with SetTimeout _ => true | _ => false end.

Definition is_CollMod (a : action) : bool :=
  match a with CollMod _ => true | _ => false end.

Definition is_Exit (a : action) : bool :=
  match a with Exit _ => true | _ => false end.

Definition is_CloseConnection (a : action) : bool :=
  match a with CloseConnection => true | _ => false end.

Definition count (p : action -> bool) (acts : list action) : nat :=
  List.length (filter p acts).

(** Actions that open or close no stream, set no timer and do not exit. *)
Definition calm (acts : list action) : bool :=
  forallb (fun a => negb (is_Watch a || is_SetInterval a || is_SetTimeout a
                          || is_Close a || is_Exit a))
          acts.

(** The streams that have been opened and not closed since, oldest first. *)
Fixpoint open_streams (acts : list action) (live : list nat) : list nat :=
  match acts with
  | [] => live
  | Watch h :: rest => open_streams rest (live ++ [h])
  | Close h true :: rest =>
      open_streams rest (filter (fun x => negb (Nat.eqb x h)) live)
  | _ :: rest => open_streams rest live
  end.

End Lifecycle.

(* ===================================================================== *)
(** ** Observations on strings and on the effects of the manager          *)
(* ===================================================================== *)

Module Observations.
Import JS ChangeStreamManager.

(** Whether an upper-case ASCII letter occurs in [s]. *)
Fixpoint has_upper (s : string) : bool :=
  match s with
  | EmptyString => false
  | String c tl => is_upper c || has_upper tl
  end.

Definition is_Connect (e : effect) : bool :=
  match e with Connect _ => true | _ => false end.

Definition is_Sleep (e : effect) : bool :=
  match e with Sleep _ => true | _ => false end.

End Observations.

(* ===================================================================== *)
(** ** Sample configurations, documents and events                        *)
(* ===================================================================== *)

Module Samples.
Import JS ChangeStreamManager.
Local Open Scope string_scope.

(** The configuration of the README and of the test suite. *)
Definition readme_tracking : TrackingConfig :=
  [("users", ["name"; "email"]); ("orders", [])].
Definition readme_sensitive : list string := ["password"; "token"; "secret"].

Definition ann : props_t :=
  [("name", VStr "Ann"); ("email", VStr "a@x.com");
   ("password", VStr "p1"); ("age", VNum 30)].

Definition account : props_t :=
  [("name", VStr "Ann");
   ("userPassword", VStr "p1");
   ("profile", Obj [("apiToken", VNum 42); ("tags", Arr [VStr "a"; VStr "b"])])].

Definition a_date : value :=
  DateObj "2024-05-01T10:00:00.000Z" "Wed May 01 2024 10:00:00 GMT+0000".

Definition an_id : value := ObjectIdObj "65f1a2b3c4d5e6f708192a3b".

(** Documents of the samples are keyed by a string. *)
Definition a_key : value := Obj [("_id", VStr "u-1001")].

Definition ns_of (coll : string) : value :=
  Obj [("db", VStr "shop"); ("coll", VStr coll)].



Definition delete_event (coll : string) (before : props_t) : value :=
  Obj [("operationType", VStr "delete");
       ("ns", ns_of coll);
       ("documentKey", a_key);
       ("fullDocumentBeforeChange", Obj before)].

(** The event MongoDB emits when the watched database is dropped: it has an
    operation type and no namespace. *)
Definition invalidate_event : value :=
  Obj [("operationType", VStr "invalidate")].



(** A manager after [initialize]: connected, with its audit log model. *)
Definition ready : state := set_auditLogModel initial_state.

(** Servers: a replica set that answers every call; a standalone server
    that accepts [replSetInitiate]; a server that reports the replica set as
    initialised already; a server that rejects [replSetInitiate]; a replica
    set on which [collMod] is rejected for views; a deployment on which
    closing a stream fails. *)
Definition replica_set : Lifecycle.server :=
  {| Lifecycle.serverStatus := Lifecycle.Done true;
     Lifecycle.replSetInitiate := Lifecycle.Done tt;
     Lifecycle.listCollections := Lifecycle.Done ["users"; "orders"];
     Lifecycle.collMod := fun _ => Lifecycle.Done tt;
     Lifecycle.closeStream := Lifecycle.Done tt;
     Lifecycle.watch := Lifecycle.Done tt;
     Lifecycle.closeConnection := Lifecycle.Done tt |}.

Definition with_status (repl : bool) (init : Lifecycle.outcome unit) : Lifecycle.server :=
  {| Lifecycle.serverStatus := Lifecycle.Done repl;
     Lifecycle.replSetInitiate := init;
     Lifecycle.listCollections := Lifecycle.Done ["users"; "orders"];
     Lifecycle.collMod := fun _ => Lifecycle.Done tt;
     Lifecycle.closeStream := Lifecycle.Done tt;
     Lifecycle.watch := Lifecycle.Done tt;
     Lifecycle.closeConnection := Lifecycle.Done tt |}.

Definition standalone : Lifecycle.server := with_status false (Lifecycle.Done tt).

Definition already_initialized : Lifecycle.server :=
  with_status false
    (Lifecycle.Fails
       {| Lifecycle.codeName := "AlreadyInitialized";
          Lifecycle.message := "already initialized" |}).

Definition not_authorized : Lifecycle.server :=
  with_status false
    (Lifecycle.Fails
       {| Lifecycle.codeName := "Unauthorized";
          Lifecycle.message := "not authorized on admin to execute command" |}).

Definition close_fails : Lifecycle.server :=
  {| Lifecycle.serverStatus := Lifecycle.Done true;
     Lifecycle.replSetInitiate := Lifecycle.Done tt;
     Lifecycle.listCollections := Lifecycle.Done ["users"; "orders"];
     Lifecycle.collMod := fun _ => Lifecycle.Done tt;
     Lifecycle.closeStream :=
       Lifecycle.Fails {| Lifecycle.codeName := "MongoNetworkError";
                          Lifecycle.message := "connection closed" |};
     Lifecycle.watch := Lifecycle.Done tt;
     Lifecycle.closeConnection := Lifecycle.Done tt |}.

(** A manager that has one stream open and its process listeners set. *)
Definition watching : Lifecycle.manager :=
  snd (Lifecycle.bindL (Lifecycle.startChangeStream DEFAULT_OPTIONS replica_set)
         (fun _ => Lifecycle.setupEventListeners)
         Lifecycle.initial_manager).

End Samples.

(* ===================================================================== *)
(** ** Property lists: assignment by key, folds that assign                *)
(* ===================================================================== *)

Module Props.
Import JS.

Lemma existsb_eqb_In (k : string) (l : list string) :
  existsb (String.eqb k) l = true <-> In k l.
Proof.
  rewrite existsb_exists. split.
  - intros [x [Hin Heq]]. apply String.eqb_eq in Heq. now subst.
  - intros Hin. exists k. split; [assumption | apply String.eqb_refl].
Qed.

Lemma distinct_NoDup (l : list string) : distinct l = true <-> NoDup l.
Proof.
  induction l as [|k tl IH]; simpl.
  - split; [constructor | reflexivity].
  - rewrite andb_true_iff, negb_true_iff, IH. split.
    + intros [Hk Htl]. constructor; [|assumption].
      intros Hin. apply existsb_eqb_In in Hin. congruence.
    + intros Hnd. inversion Hnd as [|? ? Hk Htl]; subst. split; [|assumption].
      destruct (existsb (String.eqb k) tl) eqn:E; [|reflexivity].
      apply existsb_eqb_In in E. contradiction.
Qed.

Lemma keys_app {A} (l1 l2 : list (string * A)) : keys (l1 ++ l2) = keys l1 ++ keys l2.
Proof. apply map_app. Qed.




Lemma In_lookup {A} (k : string) (v : A) (props : list (string * A)) :
  NoDup (keys props) -> In (k, v) props -> lookup k props = Some v.
Proof.
  induction props as [|[k' v'] tl IH]; simpl; [contradiction|].
  intros Hnd [Heq | Hin].
  - injection Heq as -> ->. now rewrite String.eqb_refl.
  - inversion Hnd as [|? ? Hk Htl]; subst.
    destruct (String.eqb k' k) eqn:E.
    + apply String.eqb_eq in E. subst. exfalso. apply Hk.
      apply (in_map fst) in Hin. exact Hin.
    + now apply IH.
Qed.

Lemma obj_set_fresh (k : string) (v : value) (props : props_t) :
  ~ In k (keys props) -> obj_set k v props = props ++ [(k, v)].
Proof.
  induction props as [|[k' v'] tl IH]; simpl; intros Hk; [reflexivity|].
  destruct (String.eqb k' k) eqn:E.
  - apply String.eqb_eq in E. exfalso. apply Hk. now left.
  - rewrite IH; [reflexivity|]. tauto.
Qed.

Lemma obj_set_here (k : string) (v v' : value) (pre post : props_t) :
  ~ In k (keys pre) ->
  obj_set k v' (pre ++ (k, v) :: post) = pre ++ (k, v') :: post.
Proof.
  induction pre as [|[k0 v0] tl IH]; simpl; intros Hk.
  - now rewrite String.eqb_refl.
  - destruct (String.eqb k0 k) eqn:E.
    + apply String.eqb_eq in E. exfalso. apply Hk. now left.
    + rewrite IH; [reflexivity|]. tauto.
Qed.






Lemma fold_left_ext {A B} (f g : A -> B -> A) (l : list B) (a : A) :
  (forall x y, In y l -> f x y = g x y) -> fold_left f l a = fold_left g l a.
Proof.
  revert a. induction l as [|y tl IH]; simpl; intros a H; [reflexivity|].
  rewrite H by now left. apply IH. intros x y' Hin. apply H. now right.
Qed.

(** Building an object by assigning fresh keys one after the other lists the
    properties in assignment order. *)
Lemma fold_set_fresh (g : string * value -> value) (l acc : props_t) :
  NoDup (keys acc ++ keys l) ->
  fold_left (fun a kv => obj_set (fst kv) (g kv) a) l acc
  = acc ++ map (fun kv => (fst kv, g kv)) l.
Proof.
  revert acc. induction l as [|[k v] tl IH]; simpl; intros acc Hnd.
  - now rewrite app_nil_r.
  - rewrite obj_set_fresh.
    + rewrite IH.
      * now rewrite <- app_assoc.
      * rewrite keys_app. simpl. rewrite <- app_assoc. exact Hnd.
    + intros Hin. apply NoDup_remove_2 in Hnd. apply Hnd.
      apply in_or_app. now left.
Qed.

(** The loop of the sanitizer: entries are visited in order and some are
    reassigned in the object being copied. *)
Lemma fold_set_in_place (upd : string * value -> option value) (l pre : props_t) :
  NoDup (keys pre ++ keys l) ->
  fold_left (fun a kv => match upd kv with
                         | Some x => obj_set (fst kv) x a
                         | None => a
                         end) l (pre ++ l)
  = pre ++ map (fun kv => (fst kv, match upd kv with Some x => x | None => snd kv end)) l.
Proof.
  revert pre. induction l as [|[k v] tl IH]; simpl; intros pre Hnd; [reflexivity|].
  assert (Hk : ~ In k (keys pre)).
  { intros Hin. apply NoDup_remove_2 in Hnd. apply Hnd. apply in_or_app. now left. }
  assert (Hnd' : NoDup (keys (pre ++ [(k, match upd (k, v) with Some x => x | None => v end)])
                        ++ keys tl)).
  { rewrite keys_app. simpl. rewrite <- app_assoc. exact Hnd. }
  specialize (IH _ Hnd'). rewrite <- !app_assoc in IH. simpl in IH.
  destruct (upd (k, v)) as [x|] eqn:E.
  - rewrite obj_set_here by assumption. exact IH.
  - exact IH.
Qed.

Lemma Object_fromEntries_distinct (entries : props_t) :
  NoDup (keys entries) -> Object_fromEntries entries = Obj entries.
Proof.
  intros Hnd. unfold Object_fromEntries.
  rewrite (fold_set_fresh snd) by exact Hnd. simpl. f_equal.
  rewrite <- (map_id entries) at 2. apply map_ext. now intros [k v].
Qed.

Lemma NoDup_keys_filter (f : string * value -> bool) (props : props_t) :
  NoDup (keys props) -> NoDup (keys (filter f props)).
Proof.
  induction props as [|kv tl IH]; simpl; intros Hnd; [constructor|].
  inversion Hnd as [|? ? Hk Htl]; subst.
  destruct (f kv); simpl; [|now apply IH].
  constructor; [|now apply IH].
  intros Hin. apply Hk. unfold keys in *. rewrite in_map_iff in *.
  destruct Hin as [x [Hx Hin]]. exists x. split; [assumption|].
  apply filter_In in Hin. tauto.
Qed.

End Props.

(* ===================================================================== *)
(** ** Field tracking                                                     *)
(* ===================================================================== *)

Module Tracking.
Import JS ChangeStreamManager Props.
Local Open Scope string_scope.






Lemma filterTrackedFields_object (T : TrackingConfig) (c : string)
      (cls : objclass) (props : props_t) :
  distinct (keys props) = true ->
  filterTrackedFields T (VObject cls props) c
  = Obj (filter (fun kv => shouldTrack T c (fst kv)) props).
Proof.
  intros Hd. unfold filterTrackedFields. simpl.
  apply Object_fromEntries_distinct, NoDup_keys_filter, distinct_NoDup, Hd.
Qed.

(** Entry by entry: what is kept and what is dropped. *)
Lemma filterTrackedFields_entries (T : TrackingConfig) (c : string)
      (cls : objclass) (props : props_t) (k : string) (v : value) :
  distinct (keys props) = true ->
  (In (k, v) (Object_entries (filterTrackedFields T (VObject cls props) c))
   <-> In (k, v) props /\ shouldTrack T c k = true).
Proof.
  intros Hd. rewrite filterTrackedFields_object by assumption.
  simpl. rewrite filter_In. reflexivity.
Qed.


Lemma filter_twice {A} (f : A -> bool) (l : list A) :
  filter f (filter f l) = filter f l.
Proof.
  induction l as [|x tl IH]; simpl; [reflexivity|].
  destruct (f x) eqn:E; simpl; rewrite ?E, IH; reflexivity.
Qed.




(** X1.  Filtering is idempotent: a document that has been filtered for a
    collection is left as it is by filtering it again for that collection. *)
Theorem filterTrackedFields_idempotent
        (T : TrackingConfig) (c : string) (cls : objclass) (props : props_t) :
  distinct (keys props) = true ->
  filterTrackedFields T (filterTrackedFields T (VObject cls props) c) c
  = filterTrackedFields T (VObject cls props) c.
Proof.
  intros Hd. rewrite (@filterTrackedFields_object T c cls props Hd).
  unfold Obj. rewrite filterTrackedFields_object.
  - now rewrite filter_twice.
  - apply distinct_NoDup, NoDup_keys_filter, distinct_NoDup, Hd.
Qed.


(** X1 and X2 at the configuration of the README: [users] keeps two fields,
    [orders] keeps every field, and [products] is not listed. *)
Lemma filterTrackedFields_idempotent_witness :
  filterTrackedFields Samples.readme_tracking
    (filterTrackedFields Samples.readme_tracking (VObject PlainObject Samples.ann) "users")
    "users"
  = filterTrackedFields Samples.readme_tracking (VObject PlainObject Samples.ann) "users".
Proof.
  exact (@filterTrackedFields_idempotent Samples.readme_tracking "users"
           PlainObject Samples.ann eq_refl).
Defined.


End Tracking.

(* ===================================================================== *)
(** ** Induction on values, strings                                       *)
(* ===================================================================== *)

Module Values.
Import JS.

Section Induction.
Variable P : value -> Prop.
Hypothesis Hundefined : P VUndefined.
Hypothesis Hnull : P VNull.
Hypothesis Hbool : forall b, P (VBool b).
Hypothesis Hnum : forall n, P (VNum n).
Hypothesis Hstr : forall s, P (VStr s).
Hypothesis Hobject :
  forall cls props, Forall (fun kv => P (snd kv)) props -> P (VObject cls props).

Fixpoint value_nested_ind (v : value) : P v :=
  match v with
  | VUndefined => Hundefined
  | VNull => Hnull
  | VBool b => Hbool b
  | VNum n => Hnum n
  | VStr s => Hstr s
  | VObject cls props =>
      Hobject cls
        ((fix all (l : props_t) : Forall (fun kv => P (snd kv)) l :=
            match l with
            | [] => Forall_nil _
            | kv :: tl => Forall_cons kv (value_nested_ind (snd kv)) (all tl)
            end) props)
  end.
End Induction.

Lemma prefix_app (sub s : string) :
  String.prefix sub s = true <-> exists post, s = (sub ++ post)%string.
Proof.
  revert s. induction sub as [|c sub IH]; intros s; simpl.
  - split; [intros _; now exists s | intros _; now destruct s].
  - destruct s as [|d s]; simpl.
    + split; [discriminate | intros [post H]; discriminate].
    + destruct (ascii_dec c d) as [->|Hne].
      * rewrite IH. split; intros [post H]; exists post.
        -- now rewrite H.
        -- now injection H.
      * split; [discriminate|]. intros [post H]. injection H as H1 H2. congruence.
Qed.

Lemma includes_nil (sub : string) :
  includes EmptyString sub = String.prefix sub EmptyString.
Proof. unfold includes. apply orb_false_r. Qed.

Lemma includes_cons (c : ascii) (s sub : string) :
  includes (String c s) sub = String.prefix sub (String c s) || includes s sub.
Proof. reflexivity. Qed.

(** [includes] is the substring test. *)
Lemma includes_substring (s sub : string) :
  includes s sub = true <-> exists pre post, s = (pre ++ sub ++ post)%string.
Proof.
  induction s as [|c s IH].
  - rewrite includes_nil, prefix_app. split.
    + intros [post H]. now exists EmptyString, post.
    + intros [pre [post H]]. destruct pre; [now exists post | discriminate].
  - rewrite includes_cons, orb_true_iff, IH, prefix_app. split.
    + intros [[post H] | [pre [post H]]].
      * now exists EmptyString, post.
      * exists (String c pre), post. simpl. now rewrite H.
    + intros [pre [post H]]. destruct pre as [|d pre]; simpl in H.
      * left. now exists post.
      * right. injection H as _ H. now exists pre, post.
Qed.

(** The constants derived above are those of FIPS 180-4, and the function
    agrees with the standard's test vectors. *)
Example sha256_constants :
  nth 0 SHA256.K 0%Z = 0x428a2f98%Z /\ nth 63 SHA256.K 0%Z = 0xc67178f2%Z
  /\ nth 0 SHA256.H0 0%Z = 0x6a09e667%Z /\ nth 7 SHA256.H0 0%Z = 0x5be0cd19%Z
  /\ List.length SHA256.K = 64 /\ List.length SHA256.H0 = 8.
Proof. repeat split. Qed.

Example sha256_abc :
  SHA256.sha256_hex "abc"
  = "ba7816bf8f01cfea414140de5dae2223b00361a396177a9cb410ff61f20015ad"%string.
Proof. vm_compute. reflexivity. Qed.

Example sha256_empty :
  SHA256.sha256_hex EmptyString
  = "e3b0c44298fc1c149afbf4c8996fb92427ae41e4649b934ca495991b7852b855"%string.
Proof. vm_compute. reflexivity. Qed.

Example sha256_two_blocks :
  SHA256.sha256_hex "abcdbcdecdefdefgefghfghighijhijkijkljklmklmnlmnomnopnopq"
  = "248d6a61d20638b8e5c026930c3e6039a33ce45964ff2167f6ecedd419db06c1"%string.
Proof. vm_compute. reflexivity. Qed.




End Values.

(* ===================================================================== *)
(** ** Redaction: sensitive-value hashing                                  *)
(* ===================================================================== *)

Module Redaction.
Import JS ChangeStreamManager Observations Props Values.
Local Open Scope string_scope.

Section Sanitizer.
Variable sensitiveFields : list string.

Abbreviation sanitize := (sanitizeAndHashSensitiveData sensitiveFields).
Abbreviation sensitive := (is_sensitive sensitiveFields).

(** What the loop assigns at one entry, if anything. *)
Let assigned (kv : string * value) : option value :=
  if sensitive (fst kv) then Some (hash_value (snd kv))
  else if typeof_object (snd kv) then Some (sanitize (snd kv))
  else None.

Lemma sanitize_not_object (v : value) :
  typeof_object v = false -> sanitize v = v.
Proof.
  destruct v; simpl; intros H; try reflexivity; try discriminate.
  all: now rewrite orb_true_r.
Qed.


Lemma sanitize_object_fold (cls : objclass) (props : props_t) :
  ObjectId_isValid (VObject cls props) = false ->
  sanitize (VObject cls props)
  = Obj (fold_left (fun a kv => match assigned kv with
                                | Some x => obj_set (fst kv) x a
                                | None => a
                                end) props props).
Proof.
  intros Hid.
  change (sanitize (VObject cls props))
    with (if negb true || negb true || ObjectId_isValid (VObject cls props)
          then VObject cls props
          else Obj (fold_left
                      (fun (acc : props_t) (kv : string * value) =>
                         let (key, v) := kv in
                         if sensitive key then obj_set key (hash_value v) acc
                         else if typeof_object v
                              then obj_set key (sanitize v) acc
                              else acc) props props)).
  rewrite Hid. simpl. f_equal. apply fold_left_ext.
  intros a [k v] _. unfold assigned. simpl.
  destruct (sensitive k); [reflexivity|]. now destruct (typeof_object v).
Qed.


(** Entry by entry: a sensitive key holds the digest of the string of its
    value; any other key holds its value sanitized in turn. *)
Lemma sanitize_object_map (cls : objclass) (props : props_t) :
  ObjectId_isValid (VObject cls props) = false ->
  distinct (keys props) = true ->
  sanitize (VObject cls props)
  = Obj (map (fun kv => (fst kv,
                         if sensitive (fst kv) then hash_value (snd kv)
                         else sanitize (snd kv))) props).
Proof.
  intros Hid Hd. rewrite sanitize_object_fold by assumption.
  pose proof (fold_set_in_place assigned props []) as Hfold. simpl in Hfold.
  rewrite Hfold by (apply distinct_NoDup, Hd).
  f_equal. apply map_ext. intros [k v]. unfold assigned. simpl.
  destruct (sensitive k); [reflexivity|].
  destruct (typeof_object v) eqn:E; [reflexivity|].
  now rewrite sanitize_not_object.
Qed.







Lemma has_upper_app (a b : string) :
  has_upper (a ++ b) = has_upper a || has_upper b.
Proof. induction a as [|c a IH]; simpl; [reflexivity|]. now rewrite IH, orb_assoc. Qed.

Lemma lower_char_not_upper (c : ascii) : is_upper (lower_char c) = false.
Proof. destruct c as [[] [] [] [] [] [] [] []]; reflexivity. Qed.

Lemma has_upper_toLowerCase (k : string) : has_upper (toLowerCase k) = false.
Proof.
  induction k as [|c k IH]; simpl; [reflexivity|].
  now rewrite lower_char_not_upper, IH.
Qed.

Lemma includes_has_upper (k m : string) :
  has_upper m = true -> includes (toLowerCase k) m = false.
Proof.
  intros Hm. destruct (includes (toLowerCase k) m) eqn:E; [|reflexivity].
  apply includes_substring in E. destruct E as [pre [post E]].
  pose proof (has_upper_toLowerCase k) as Hk.
  rewrite E, !has_upper_app, Hm, orb_true_r in Hk. discriminate.
Qed.


(** The matchers of the package's entry point, on names that only contain
    one of them. *)
Example entry_matchers_inside_words :
  let matchers := ["password"; "token"; "secret"; "key"; "auth"] in
  is_sensitive matchers "author" = true
  /\ is_sensitive matchers "OAuthState" = true
  /\ is_sensitive matchers "monkey" = true
  /\ is_sensitive matchers "name" = false.
Proof. repeat split. Qed.

(** X4.  A matcher in which an upper-case ASCII letter occurs matches no key
    at all (the key is lower-cased, the matcher is not): removing these
    matchers from the list changes nothing, for any key. *)
Theorem uppercase_matchers_are_dead (k : string) :
  sensitive k
  = is_sensitive (filter (fun m => negb (has_upper m)) sensitiveFields) k.
Proof.
  unfold is_sensitive.
  induction sensitiveFields as [|m tl IH]; simpl; [reflexivity|].
  destruct (has_upper m) eqn:Hm; simpl.
  - now rewrite includes_has_upper.
  - now rewrite IH.
Qed.





End Sanitizer.

(** X8.  With no matcher (the default of the constructor) the sanitizer
    hashes nothing and returns a document made of primitives and plain
    objects as it is. *)
Theorem sanitize_without_matchers (v : value) :
  wf v = true -> plain_data v = true -> has_array v = false ->
  sanitizeAndHashSensitiveData [] v = v.
Proof.
  induction v as [| | | | |cls props IH] using value_nested_ind;
    try (intros _ _ _; now apply sanitize_not_object).
  - reflexivity.
  - intros Hwf Hplain Harr.
    destruct cls as [| |e]; [|discriminate Harr|discriminate Hplain].
    simpl in Hwf. apply andb_true_iff in Hwf. destruct Hwf as [Hd Hall].
    rewrite sanitize_object_map by (reflexivity || assumption).
    unfold Obj. f_equal.
    cbn [plain_data] in Hplain. cbn [has_array ObjectId_isValid Array_isArray negb andb orb]
      in Harr.
    clear Hd. revert IH Hall Hplain Harr.
    induction props as [|[k x] tl IHtl]; intros IH Hall Hplain Harr; [reflexivity|].
    cbn [forallb existsb map fst snd] in *.
    apply andb_true_iff in Hall, Hplain. apply orb_false_iff in Harr.
    destruct Hall as [Hx Htl], Hplain as [Hpx Hptl], Harr as [Hax Hatl].
    inversion IH as [|? ? IHx IHrest]; subst. cbn [snd] in IHx.
    change (is_sensitive [] k) with false. cbn iota.
    rewrite IHx by assumption. f_equal. now apply IHtl.
Qed.




(** X8 at a nested document without arrays. *)
Lemma sanitize_without_matchers_witness :
  sanitizeAndHashSensitiveData []
    (Obj [("name", VStr "Ann"); ("profile", Obj [("apiToken", VNum 42)])])
  = Obj [("name", VStr "Ann"); ("profile", Obj [("apiToken", VNum 42)])].
Proof.
  exact (@sanitize_without_matchers
           (Obj [("name", VStr "Ann"); ("profile", Obj [("apiToken", VNum 42)])])
           eq_refl eq_refl eq_refl).
Defined.


Example sanitize_account :
  sanitizeAndHashSensitiveData Samples.readme_sensitive (Obj Samples.account)
  = Obj [("name", VStr "Ann");
         ("userPassword",
          VStr "f64551fcd6f07823cb87971cfb91446425da18286b3ab1ef935e0cbd7a69f68a");
         ("profile",
          Obj [("apiToken",
                VStr "73475cb40a568e8da8a045ced110137e159f890ac4da883b6b17dc651b3a8049");
               ("tags", Obj [("0", VStr "a"); ("1", VStr "b")])])].
Proof. vm_compute. reflexivity. Qed.

Example sanitize_nested_leaf :
  descend Samples.readme_sensitive ["profile"] (Obj Samples.account)
  = Some (Obj [("apiToken", VNum 42); ("tags", Arr [VStr "a"; VStr "b"])])
  /\ at_path ["profile"; "apiToken"]
       (sanitizeAndHashSensitiveData Samples.readme_sensitive (Obj Samples.account))
     = Some (VStr (SHA256.sha256_hex "42")).
Proof. split; vm_compute; reflexivity. Qed.

(** The key is lower-cased and the matcher is not: a matcher with an
    upper-case letter matches no key. *)
Example uppercase_matcher_matches_nothing :
  is_sensitive ["Password"] "password" = false
  /\ is_sensitive ["Password"] "Password" = false
  /\ is_sensitive ["password"] "userPassword" = true.
Proof. repeat split. Qed.

Example sanitize_keeps_identifier :
  sanitizeAndHashSensitiveData Samples.readme_sensitive
    (Obj [("_id", Samples.an_id); ("when", Samples.a_date)])
  = Obj [("_id", Samples.an_id); ("when", Obj [])].
Proof. vm_compute. reflexivity. Qed.

End Redaction.

(* ===================================================================== *)
(** ** Depth limiting and the checksum                                    *)
(* ===================================================================== *)

Module Checksum.
Import JS ChangeStreamManager Props Values.
Local Open Scope string_scope.

Section Limit.
Variable options : ManagerOptions.

Abbreviation limit := (limitObjectDepth options).

(** At the bound, and below it, the value is returned as it is. *)
Lemma limitObjectDepth_at_bound (obj : value) (d : Z) :
  (maxObjectDepth options <= d)%Z -> limit obj d = obj.
Proof.
  intros Hd. assert (E : (d >=? maxObjectDepth options)%Z = true) by lia.
  destruct obj; simpl; rewrite ?E, ?orb_true_r; reflexivity.
Qed.

Lemma limitObjectDepth_primitive (obj : value) (d : Z) :
  typeof_object obj = false -> limit obj d = obj.
Proof.
  destruct obj; simpl; intros H; try discriminate; try reflexivity.
  all: now rewrite orb_true_r.
Qed.


Lemma limitObjectDepth_object (cls : objclass) (props : props_t) (d : Z) :
  (d < maxObjectDepth options)%Z ->
  cls <> ArrayObject ->
  distinct (keys props) = true ->
  limit (VObject cls props) d
  = Obj (map (fun kv => (fst kv, limit (snd kv) (d + 1))) props).
Proof.
  intros Hd Hcls Hdist.
  assert (E : (d >=? maxObjectDepth options)%Z = false) by lia.
  assert (Hfold :
    fold_left (fun (acc : props_t) (kv : string * value) =>
                 obj_set (fst kv) (limit (snd kv) (d + 1)) acc) props []
    = map (fun kv => (fst kv, limit (snd kv) (d + 1))) props).
  { apply (fold_set_fresh (fun kv => limit (snd kv) (d + 1)) props []).
    apply distinct_NoDup, Hdist. }
  destruct cls as [| |e]; [|contradiction|]; simpl; rewrite E; simpl;
    now rewrite Hfold.
Qed.





(** No call is entered deeper than the bound (or than the depth of the
    first call, when that is already past the bound). *)
Lemma limitObjectDepth_calls_leaf (obj : value) (d : Z) :
  negb (truthy obj) || negb (typeof_object obj)
  || (d >=? maxObjectDepth options)%Z = true ->
  limitObjectDepth_calls options obj d = [d].
Proof.
  intros H. destruct obj; simpl in *; first [reflexivity | now rewrite H].
Qed.

Lemma limitObjectDepth_calls_bounded (obj : value) :
  forall d d', In d' (limitObjectDepth_calls options obj d) ->
               (d <= d' <= Z.max d (maxObjectDepth options))%Z.
Proof.
  induction obj as [| | | | |cls props IH] using value_nested_ind;
    intros d d' Hin.
  1-5: rewrite limitObjectDepth_calls_leaf in Hin
         by (simpl; now rewrite ?orb_true_r);
       destruct Hin as [<-|[]]; lia.
  destruct (d >=? maxObjectDepth options)%Z eqn:E.
  - rewrite limitObjectDepth_calls_leaf in Hin by (simpl; exact E).
    destruct Hin as [<-|[]]; lia.
  - simpl in Hin. rewrite E in Hin. simpl in Hin.
    destruct Hin as [<-|Hin]; [lia|].
    apply in_flat_map in Hin. destruct Hin as [kv [Hkv Hin]].
    rewrite Forall_forall in IH. specialize (IH kv Hkv _ _ Hin). lia.
Qed.

End Limit.

(** C9, at an input of the shape the event processor produces for every
    event: a record whose timestamp is a [Date].  The date lies above the
    bound and is not reproduced: it comes back as an empty plain object,
    while the plain data next to it is reproduced. *)
Theorem limitObjectDepth_drops_date :
  limitObjectDepth DEFAULT_OPTIONS
    (Obj [("timestamp", Samples.a_date);
          ("documentKey", Samples.a_key);
          ("newValue", Obj [("name", VStr "Ann"); ("since", Samples.a_date)])]) 0
  = Obj [("timestamp", Obj []);
         ("documentKey", Samples.a_key);
         ("newValue", Obj [("name", VStr "Ann"); ("since", Obj [])])].
Proof. vm_compute. reflexivity. Qed.

(** Two candidates that differ in a date only have the same checksum. *)
Example createChecksum_blind_to_dates :
  createChecksum DEFAULT_OPTIONS
    (Obj [("timestamp", DateObj "2024-05-01T10:00:00.000Z" "Wed May 01 2024")])
  = createChecksum DEFAULT_OPTIONS
    (Obj [("timestamp", DateObj "1999-12-31T23:59:59.000Z" "Fri Dec 31 1999")]).
Proof. vm_compute. reflexivity. Qed.




Lemma keys_around (pre post : props_t) (k : string) (v : value) :
  keys (pre ++ (k, v) :: post)%list = (keys pre ++ k :: keys post)%list.
Proof. unfold keys. now rewrite map_app. Qed.


(** X10.  [limitObjectDepth] called on a value at depth 0 is never entered
    at a depth above the bound (or above 0, for a bound that is negative),
    and a value it meets at the bound or below it is returned as it is, not
    cut. *)
Theorem limitObjectDepth_recursion_bounded (options : ManagerOptions) (obj : value) :
  (forall d, In d (limitObjectDepth_calls options obj 0) ->
             (0 <= d <= Z.max 0 (maxObjectDepth options))%Z)
  /\ (forall v d, (maxObjectDepth options <= d)%Z -> limitObjectDepth options v d = v).
Proof.
  split.
  - intros d Hin. exact (@limitObjectDepth_calls_bounded options obj 0%Z d Hin).
  - intros v d Hd. now apply limitObjectDepth_at_bound.
Qed.

Lemma limitObjectDepth_exotic (options : ManagerOptions) (e : exotic) (d : Z) :
  (d < maxObjectDepth options)%Z ->
  limitObjectDepth options (VObject (ExoticObject e) []) d = Obj [].
Proof.
  intros Hd. rewrite limitObjectDepth_object; [reflexivity | exact Hd | discriminate
                                               | reflexivity].
Qed.

(** X11.  With a bound above 1, the checksum of a record does not depend on
    a date it holds: two records that differ in the [Date] under one key
    only (the [timestamp] of the audit record, for one) have the same
    checksum. *)
Theorem createChecksum_ignores_dates
        (options : ManagerOptions) (pre post : props_t) (k : string) (e1 e2 : exotic) :
  (1 < maxObjectDepth options)%Z ->
  distinct (keys pre ++ k :: keys post)%list = true ->
  createChecksum options (Obj (pre ++ (k, VObject (ExoticObject e1) []) :: post)%list)
  = createChecksum options (Obj (pre ++ (k, VObject (ExoticObject e2) []) :: post)%list).
Proof.
  intros Hmax Hd. unfold createChecksum.
  assert (Hlim : forall e,
             limitObjectDepth options
               (Obj (pre ++ (k, VObject (ExoticObject e) []) :: post)%list) 0
             = Obj (map (fun kv => (fst kv, limitObjectDepth options (snd kv) (0 + 1))) pre
                    ++ (k, Obj [])
                    :: map (fun kv => (fst kv, limitObjectDepth options (snd kv) (0 + 1)))
                         post)%list).
  { intros e. unfold Obj.
    rewrite limitObjectDepth_object;
      [|lia | discriminate | now rewrite keys_around].
    rewrite map_app. cbn [map fst snd].
    now rewrite limitObjectDepth_exotic by lia. }
  now rewrite !Hlim.
Qed.

Lemma distinct_without (pre post : list string) (k : string) :
  distinct (pre ++ k :: post)%list = true -> distinct (pre ++ post)%list = true.
Proof.
  rewrite !distinct_NoDup. apply NoDup_remove_1.
Qed.

(** X18.  A property that holds [undefined] is invisible to the checksum:
    the record with it and the record without it have the same checksum. *)
Theorem createChecksum_ignores_undefined
        (options : ManagerOptions) (pre post : props_t) (k : string) :
  distinct (keys pre ++ k :: keys post)%list = true ->
  createChecksum options (Obj (pre ++ (k, VUndefined) :: post)%list)
  = createChecksum options (Obj (pre ++ post)%list).
Proof.
  intros Hd. unfold createChecksum.
  assert (Hjson : forall l1 l2 : props_t,
             JSON_stringify (Obj (l1 ++ (k, VUndefined) :: l2)%list)
             = JSON_stringify (Obj (l1 ++ l2)%list)).
  { intros l1 l2. cbn [JSON_stringify Obj]. rewrite !flat_map_app. reflexivity. }
  destruct (Z_lt_le_dec 0 (maxObjectDepth options)) as [Hmax|Hmax].
  - unfold Obj.
    rewrite !limitObjectDepth_object;
      try assumption; try discriminate;
      [| rewrite keys_app; now apply distinct_without with k
       | now rewrite keys_around ].
    rewrite !map_app. cbn [map fst snd].
    rewrite limitObjectDepth_primitive by reflexivity.
    now rewrite (Hjson _ _).
  - rewrite !limitObjectDepth_at_bound by assumption. now rewrite Hjson.
Qed.


(** X11 at two records that differ in their timestamp. *)
Lemma createChecksum_ignores_dates_witness :
  createChecksum DEFAULT_OPTIONS
    (Obj ([] ++ ("timestamp",
                 VObject (ExoticObject (mkExotic (Some "2024-05-01T10:00:00.000Z")
                                          "Wed May 01 2024" false)) [])
             :: [("collectionName", VStr "users")])%list)
  = createChecksum DEFAULT_OPTIONS
      (Obj ([] ++ ("timestamp",
                   VObject (ExoticObject (mkExotic (Some "1999-12-31T23:59:59.000Z")
                                            "Fri Dec 31 1999" false)) [])
               :: [("collectionName", VStr "users")])%list).
Proof.
  exact (@createChecksum_ignores_dates DEFAULT_OPTIONS
           [] [("collectionName", VStr "users")] "timestamp"
           (mkExotic (Some "2024-05-01T10:00:00.000Z") "Wed May 01 2024" false)
           (mkExotic (Some "1999-12-31T23:59:59.000Z") "Fri Dec 31 1999" false)
           eq_refl eq_refl).
Defined.

(** X18 at a record without a document key. *)
Lemma createChecksum_ignores_undefined_witness :
  createChecksum DEFAULT_OPTIONS
    (Obj ([("collectionName", VStr "users")] ++ ("documentKey", VUndefined)
            :: [("updateDescription", VNull)])%list)
  = createChecksum DEFAULT_OPTIONS
      (Obj ([("collectionName", VStr "users")] ++ [("updateDescription", VNull)])%list).
Proof.
  exact (@createChecksum_ignores_undefined DEFAULT_OPTIONS
           [("collectionName", VStr "users")] [("updateDescription", VNull)]
           "documentKey" eq_refl).
Defined.

End Checksum.

(* ===================================================================== *)
(** ** The event processor                                                *)
(* ===================================================================== *)

Module EventProcessor.
Import JS ChangeStreamManager Props Values.
Local Open Scope string_scope.

Section Processor.
Variable trackingConfig : TrackingConfig.
Variable sensitiveFields : list string.
Variable options : ManagerOptions.
Variable now : value.
Variable write_ok : bool.

Abbreviation process :=
  (processChange trackingConfig sensitiveFields options now write_ok).
Abbreviation filtered := (filterTrackedFields trackingConfig).
Abbreviation sanitize := (sanitizeAndHashSensitiveData sensitiveFields).


(** Names for the pieces of [processChange]: the record as first built, the
    record after the [switch], and the guarded write. *)
Let base (change collectionName : value) : props_t :=
  [("timestamp", now);
   ("operationType", get_opt change "operationType");
   ("collectionName", collectionName);
   ("documentKey", get_opt change "documentKey");
   ("updateDescription", or_else (get_opt change "updateDescription") VNull)].

Let switched (change collectionName : value) : option props_t :=
  let operationType := get_opt change "operationType" in
  let coll := ToString collectionName in
  let newValue := filtered (get_opt change "fullDocument") coll in
  let oldValue := filtered (get_opt change "fullDocumentBeforeChange") coll in
  if strict_eq_str operationType "insert" then
    Some (obj_set "newValue" newValue (base change collectionName))
  else if strict_eq_str operationType "update" then
    Some (obj_set "newValue" newValue
            (obj_set "oldValue" oldValue (base change collectionName)))
  else if strict_eq_str operationType "delete" then
    Some (obj_set "oldValue" oldValue (base change collectionName))
  else None.

Let save (auditLog : props_t) (collectionName : value) : M unit :=
  try_catch
    ((fun st =>
        (if auditLogModel st
         then AuditLog_create sensitiveFields write_ok (Obj auditLog)
         else ret tt) st)
       ;;; do (ConsoleLog ("Change detected in " ++ ToString collectionName ++ ":")))
    (fun _ => do (ConsoleError "Error saving audit log:")).

Lemma processChange_object (cls : objclass) (ev : props_t) (st : state) :
  process (VObject cls ev) st
  = match get (get_opt (VObject cls ev) "ns") "coll" with
    | Throw e => (Throw e, st)
    | Ok collectionName =>
        if strict_eq_str collectionName "audit_logs" then (Ok tt, st)
        else
          match switched (VObject cls ev) collectionName with
          | None => (Ok tt, st)
          | Some auditLog =>
              match createChecksum options (Obj auditLog) with
              | Throw e => (Throw e, st)
              | Ok checksum =>
                  save (obj_set "checksum" (VStr checksum) auditLog) collectionName st
              end
          end
    end.
Proof.
  unfold processChange, bindM, lift, switched, base, save. cbn [get get_opt].
  destruct (get _ "coll") as [collectionName|e]; [|reflexivity].
  destruct (strict_eq_str collectionName "audit_logs"); [reflexivity|].
  destruct (strict_eq_str _ "insert"); [reflexivity|].
  destruct (strict_eq_str _ "update"); [reflexivity|].
  destruct (strict_eq_str _ "delete"); reflexivity.
Qed.



(** An event of the watched collections' own audit trail is dropped. *)
Lemma processChange_own_collection (cls : objclass) (ev : props_t) (st : state) :
  get (get_opt (VObject cls ev) "ns") "coll" = Ok (VStr "audit_logs") ->
  process (VObject cls ev) st = (Ok tt, st).
Proof. intros H. rewrite processChange_object, H. reflexivity. Qed.

(** An event that has a namespace and an operation type other than insert,
    update and delete is dropped. *)
Lemma processChange_other_operation
      (cls : objclass) (ev : props_t) (st : state) (collectionName : value) :
  get (get_opt (VObject cls ev) "ns") "coll" = Ok collectionName ->
  strict_eq_str (get_opt (VObject cls ev) "operationType") "insert" = false ->
  strict_eq_str (get_opt (VObject cls ev) "operationType") "update" = false ->
  strict_eq_str (get_opt (VObject cls ev) "operationType") "delete" = false ->
  process (VObject cls ev) st = (Ok tt, st).
Proof.
  intros Hcoll Hi Hu Hd. rewrite processChange_object, Hcoll.
  destruct (strict_eq_str collectionName "audit_logs"); [reflexivity|].
  unfold switched. now rewrite Hi, Hu, Hd.
Qed.

(** An event without a namespace makes [ns.coll] throw, whatever its
    operation type, before anything is written. *)
Lemma processChange_no_namespace (cls : objclass) (ev : props_t) (st : state) :
  get_opt (VObject cls ev) "ns" = VUndefined \/ get_opt (VObject cls ev) "ns" = VNull ->
  exists msg, process (VObject cls ev) st = (Throw (TypeError msg), st).
Proof.
  intros Hns. rewrite processChange_object.
  destruct Hns as [-> | ->]; eexists; reflexivity.
Qed.




(** Nothing is written for a change that is not an object. *)
Lemma processChange_not_object (change : value) (st : state) :
  (forall cls ev, change <> VObject cls ev) ->
  exists e, process change st = (Throw e, st).
Proof.
  intros H. destruct change; try (eexists; reflexivity).
  exfalso. eapply H. reflexivity.
Qed.










End Processor.









(** C4 at the event that closes a watched database: for any configuration
    and any state, [processChange] throws on [ns.coll]; the promise it
    returns is rejected, and nothing is written. *)
Theorem processChange_invalidate_throws
        (trackingConfig : TrackingConfig) (sensitiveFields : list string)
        (options : ManagerOptions) (now : value) (write_ok : bool) (st : state) :
  processChange trackingConfig sensitiveFields options now write_ok
    Samples.invalidate_event st
  = (Throw (TypeError "Cannot read properties of undefined or null, reading coll"), st).
Proof. reflexivity. Qed.

End EventProcessor.

(* ===================================================================== *)
(** ** The connection retry loop                                          *)
(* ===================================================================== *)

Module Supervisor.
Import JS ChangeStreamManager Observations.
Local Open Scope string_scope.

Lemma state_eq (s t : state) :
  reconnectAttempts s = reconnectAttempts t ->
  auditLogModel s = auditLogModel t ->
  created s = created t ->
  audit_logs s = audit_logs t ->
  effects s = effects t ->
  s = t.
Proof. destruct s, t; simpl; intros; subst; reflexivity. Qed.

Section Connection.
Variable options : ManagerOptions.
Variable connects : nat -> bool.

Abbreviation max := (maxReconnectAttempts options).
Abbreviation connect := (connectDB options connects).

(** One failed attempt followed by the wait. *)
Let retry : list effect :=
  [Connect false; ConsoleError "MongoDB connection error:"; Sleep (reconnectDelay options)].

Let failure : list effect :=
  [Connect false; ConsoleError "MongoDB connection error:"].

Let success : list effect :=
  [Connect true; ConsoleLog "MongoDB connected successfully"].

Let fatal : error :=
  Error ("Max reconnection attempts (" ++ decimal max ++ ") reached").

Lemma connectDB_unfold (i : nat) (st : state) :
  connect i st
  = if connects i
    then (Ok tt, set_reconnectAttempts 0 (perform success st))
    else
      let st1 := set_reconnectAttempts (reconnectAttempts st + 1) (perform failure st) in
      match Z_ge_dec (reconnectAttempts st + 1) max with
      | left _ => (Throw fatal, st1)
      | right _ => connect (S i) (perform [Sleep (reconnectDelay options)] st1)
      end.
Proof.
  simp connectDB. destruct (connects i); simp connectDB; reflexivity.
Qed.

(** [k] failed attempts that leave room for another one: the counter has
    advanced by [k] and [k] waits have been awaited. *)
Lemma connectDB_retries (k : nat) :
  forall (i : nat) (st : state),
    (forall j, (j < k)%nat -> connects (i + j) = false) ->
    (reconnectAttempts st + Z.of_nat k < max)%Z ->
    connect i st
    = connect (i + k)
        (set_reconnectAttempts (reconnectAttempts st + Z.of_nat k)
           (perform (List.concat (repeat retry k)) st)).
Proof.
  induction k as [|k IH]; intros i st Hfail Hroom.
  - rewrite Nat.add_0_r. f_equal. apply state_eq; simpl; try reflexivity.
    + lia.
    + now rewrite app_nil_r.
  - rewrite connectDB_unfold.
    rewrite <- (Nat.add_0_r i) at 1. rewrite Hfail by lia.
    cbv zeta. destruct (Z_ge_dec (reconnectAttempts st + 1) max) as [Hge|_]; [lia|].
    rewrite IH.
    + replace (S i + k)%nat with (i + S k)%nat by lia.
      f_equal. apply state_eq; simpl; try reflexivity.
      * lia.
      * now rewrite <- !app_assoc.
    + intros j Hj. replace (S i + j)%nat with (i + S j)%nat by lia.
      apply Hfail. lia.
    + simpl. lia.
Qed.

(** With [n] attempts left the call throws exactly when all [n] fail. *)
Lemma connectDB_throws_iff (n : nat) :
  forall (i : nat) (st : state),
    Z.max 1 (max - reconnectAttempts st) = Z.of_nat (S n) ->
    (thrown (connect i st) <-> forall j, (j <= n)%nat -> connects (i + j) = false).
Proof.
  induction n as [|n IH]; intros i st Hleft; rewrite connectDB_unfold.
  - destruct (connects i) eqn:Hc.
    + split; [intros []|]. intros H. specialize (H 0%nat (Nat.le_refl _)).
      rewrite Nat.add_0_r in H. congruence.
    + cbv zeta. destruct (Z_ge_dec (reconnectAttempts st + 1) max) as [_|Hlt]; [|lia].
      split; [|intros _; exact I].
      intros _ j Hj. replace j with 0%nat by lia. now rewrite Nat.add_0_r.
  - destruct (connects i) eqn:Hc.
    + split; [intros []|]. intros H. specialize (H 0%nat (Nat.le_0_l _)).
      rewrite Nat.add_0_r in H. congruence.
    + cbv zeta. destruct (Z_ge_dec (reconnectAttempts st + 1) max) as [Hge|_]; [lia|].
      rewrite IH by (simpl; lia). split.
      * intros H j Hj. destruct j as [|j]; [now rewrite Nat.add_0_r|].
        replace (i + S j)%nat with (S i + j)%nat by lia. apply H. lia.
      * intros H j Hj. replace (S i + j)%nat with (i + S j)%nat by lia.
        apply H. lia.
Qed.

Lemma initialize_propagates (st : state) (e : error) :
  fst (connect 0 st) = Throw e ->
  initialize options connects st = (Throw e, snd (connect 0 st)).
Proof.
  unfold initialize, bindM. destruct (connect 0 st) as [[[]|e'] st']; simpl.
  - discriminate.
  - now intros [= ->].
Qed.

(** C8.  From a fresh retry counter and with a positive maximum [max]:
    a connection that fails [k < max] times and then succeeds is retried
    after the fixed delay each time, and the success resets the counter to
    zero; a connection that fails [max] times in a row has been attempted
    [max] times, with [max - 1] waits, when the fatal error is thrown with
    the counter at [max], and [initialize] rethrows it without running any
    later step; and the fatal error is thrown in that case only. *)
Theorem connectDB_retry_policy (st : state) :
  (0 < max)%Z ->
  reconnectAttempts st = 0%Z ->
  (forall k : nat,
      (Z.of_nat k < max)%Z ->
      (forall j, (j < k)%nat -> connects j = false) ->
      connects k = true ->
      fst (connect 0 st) = Ok tt
      /\ reconnectAttempts (snd (connect 0 st)) = 0%Z
      /\ effects (snd (connect 0 st))
         = (effects st ++ List.concat (repeat retry k) ++ success)%list)
  /\ ((forall j : nat, (Z.of_nat j < max)%Z -> connects j = false) ->
      fst (connect 0 st) = Throw fatal
      /\ reconnectAttempts (snd (connect 0 st)) = max
      /\ effects (snd (connect 0 st))
         = (effects st ++ List.concat (repeat retry (Z.to_nat max - 1)) ++ failure)%list
      /\ initialize options connects st = (Throw fatal, snd (connect 0 st)))
  /\ (thrown (connect 0 st)
      <-> forall j : nat, (Z.of_nat j < max)%Z -> connects j = false).
Proof.
  intros Hmax Hfresh. split; [|split].
  - intros k Hk Hfail Hok.
    rewrite (@connectDB_retries k 0 st) by (simpl; auto; lia).
    rewrite connectDB_unfold. simpl Nat.add. rewrite Hok. simpl.
    repeat split. now rewrite <- app_assoc.
  - intros Hfail.
    assert (Hthrow :
      connect 0 st
      = (Throw fatal,
         set_reconnectAttempts max
           (perform (List.concat (repeat retry (Z.to_nat max - 1)) ++ failure) st))).
    { rewrite (@connectDB_retries (Z.to_nat max - 1) 0 st).
      - rewrite connectDB_unfold. simpl Nat.add. rewrite Hfail by lia. cbv zeta.
        cbn [reconnectAttempts set_reconnectAttempts].
        destruct (Z_ge_dec _ max) as [_|Hlt]; [|lia].
        f_equal. apply state_eq; simpl; try reflexivity.
        + lia.
        + now rewrite <- app_assoc.
      - intros j Hj. apply Hfail. lia.
      - lia. }
    rewrite (@initialize_propagates st fatal) by now rewrite Hthrow.
    rewrite Hthrow. simpl. repeat split.
  - rewrite (@connectDB_throws_iff (Z.to_nat max - 1) 0 st) by lia.
    split; intros H j Hj; apply H; lia.
Qed.

(** From any counter and for any maximum: the call ends after [k] failed
    attempts that are retried and one last attempt. *)
Lemma connectDB_run (n : nat) :
  forall (i : nat) (st : state),
    Z.max 1 (max - reconnectAttempts st) = Z.of_nat (S n) ->
    exists k : nat,
      (k <= n)%nat
      /\ (forall j, (j < k)%nat -> connects (i + j) = false)
      /\ connect i st
         = (if connects (i + k)
            then (Ok tt,
                  set_reconnectAttempts 0
                    (perform (List.concat (repeat retry k) ++ success) st))
            else (Throw fatal,
                  set_reconnectAttempts (reconnectAttempts st + Z.of_nat k + 1)
                    (perform (List.concat (repeat retry k) ++ failure) st)))
      /\ (connects (i + k) = false -> k = n).
Proof.
  induction n as [|n IH]; intros i st Hleft; rewrite connectDB_unfold.
  - exists 0%nat. rewrite Nat.add_0_r. split; [lia|]. split; [intros j Hj; lia|].
    destruct (connects i); [split; [reflexivity | discriminate]|].
    cbv zeta. destruct (Z_ge_dec (reconnectAttempts st + 1) max) as [_|Hlt]; [|lia].
    split; [|reflexivity]. f_equal. apply state_eq; simpl; try reflexivity. lia.
  - destruct (connects i) eqn:Hci.
    + exists 0%nat. rewrite Nat.add_0_r, Hci. split; [lia|].
      split; [intros j Hj; lia|]. split; [reflexivity | discriminate].
    + cbv zeta. destruct (Z_ge_dec (reconnectAttempts st + 1) max) as [Hge|_]; [lia|].
      destruct (IH (S i)
                  (perform [Sleep (reconnectDelay options)]
                     (set_reconnectAttempts (reconnectAttempts st + 1)
                        (perform failure st))))
        as [k [Hk [Hfail [Hrun Hlast]]]]; [simpl; lia|].
      exists (S k). split; [lia|]. split.
      * intros j Hj. destruct j as [|j]; [now rewrite Nat.add_0_r|].
        replace (i + S j)%nat with (S i + j)%nat by lia. apply Hfail. lia.
      * replace (i + S k)%nat with (S i + k)%nat by lia. split.
        -- unfold failure in Hrun |- *. rewrite Hrun.
           destruct (connects (S i + k)); f_equal; apply state_eq; simpl;
             try reflexivity; rewrite <- ?app_assoc; try reflexivity; lia.
        -- intros H. f_equal. now apply Hlast.
Qed.

Lemma retry_counts (k : nat) :
  List.length (filter is_Connect (List.concat (repeat retry k))) = k
  /\ filter is_Sleep (List.concat (repeat retry k))
     = repeat (Sleep (reconnectDelay options)) k.
Proof.
  induction k as [|k [IH1 IH2]]; [split; reflexivity|].
  cbn. rewrite IH1, IH2. split; reflexivity.
Qed.

(** The other fields of the manager are not touched. *)
Lemma connectDB_frame (i : nat) (st : state) :
  auditLogModel (snd (connect i st)) = auditLogModel st
  /\ created (snd (connect i st)) = created st
  /\ audit_logs (snd (connect i st)) = audit_logs st.
Proof.
  destruct (@connectDB_run (Z.to_nat (Z.max 1 (max - reconnectAttempts st)) - 1) i st)
    as [k [_ [_ [Hrun _]]]]; [lia|].
  rewrite Hrun. destruct (connects (i + k)); repeat split.
Qed.

(** X12.  From any value of the retry counter and for any maximum, also one
    that is zero or negative, [connectDB] returns or throws after at least
    one and at most [max(1, maxReconnectAttempts - reconnectAttempts)] calls
    of [mongoose.connect]; its waits are one fewer than its calls, each of
    [reconnectDelay], and it leaves the audit log model and the audit log
    alone.  When it throws, it has used all these calls and the counter is
    at the maximum or above. *)
Theorem connectDB_attempts_bounded (i : nat) (st : state) :
  let st' := snd (connect i st) in
  exists new,
    effects st' = (effects st ++ new)%list
    /\ (1 <= Z.of_nat (List.length (filter is_Connect new))
        <= Z.max 1 (max - reconnectAttempts st))%Z
    /\ filter is_Sleep new
       = repeat (Sleep (reconnectDelay options))
           (List.length (filter is_Connect new) - 1)
    /\ auditLogModel st' = auditLogModel st
    /\ created st' = created st
    /\ audit_logs st' = audit_logs st
    /\ (thrown (connect i st) ->
        Z.of_nat (List.length (filter is_Connect new))
        = Z.max 1 (max - reconnectAttempts st)
        /\ (max <= reconnectAttempts st')%Z).
Proof.
  cbv zeta.
  destruct (@connectDB_run (Z.to_nat (Z.max 1 (max - reconnectAttempts st)) - 1) i st)
    as [k [Hk [_ [Hrun Hlast]]]]; [lia|].
  rewrite Hrun. destruct (retry_counts k) as [Hc Hs].
  destruct (connects (i + k)); cbn [fst snd effects perform set_reconnectAttempts
                                    auditLogModel created audit_logs reconnectAttempts];
    eexists; (split; [reflexivity|]);
    rewrite !filter_app, !length_app, Hc, Hs; cbn [filter is_Connect is_Sleep List.length
                                                     failure success];
    rewrite ?app_nil_r; replace (k + 1 - 1)%nat with k by lia;
    (split; [lia|]); (split; [reflexivity|]); (split; [reflexivity|]);
    (split; [reflexivity|]); (split; [reflexivity|]).
  - intros [].
  - intros _. specialize (Hlast eq_refl). lia.
Qed.

(** X13.  The counter is reset by a successful connection only.  Once
    [connectDB] has thrown, a further call (a second [initialize()], say)
    whose first attempt fails throws at once: one call of
    [mongoose.connect], no wait, the same error. *)
Theorem connectDB_counter_survives_failure (i j : nat) (st : state) :
  thrown (connect i st) ->
  connects j = false ->
  let st1 := snd (connect i st) in
  connect j st1
  = (Throw fatal,
     set_reconnectAttempts (reconnectAttempts st1 + 1) (perform failure st1)).
Proof.
  intros Hthrown Hj. cbv zeta.
  assert (Hfull : (max <= reconnectAttempts (snd (connect i st)))%Z).
  { destruct (@connectDB_run (Z.to_nat (Z.max 1 (max - reconnectAttempts st)) - 1) i st)
      as [k [Hk [_ [Hrun Hlast]]]]; [lia|].
    rewrite Hrun in Hthrown |- *.
    destruct (connects (i + k)); [destruct Hthrown|].
    specialize (Hlast eq_refl). cbn. lia. }
  rewrite connectDB_unfold, Hj. cbv zeta.
  destruct (Z_ge_dec _ max) as [_|Hlt]; [reflexivity | lia].
Qed.

End Connection.

(** The theorem with the default options, for a database that accepts the
    fourth connection attempt. *)
Lemma connectDB_retry_policy_witness :
  let connects := fun i : nat => (3 <=? i)%nat in
  fst (connectDB DEFAULT_OPTIONS connects 0 initial_state) = Ok tt
  /\ reconnectAttempts (snd (connectDB DEFAULT_OPTIONS connects 0 initial_state)) = 0%Z
  /\ effects (snd (connectDB DEFAULT_OPTIONS connects 0 initial_state))
     = [Connect false; ConsoleError "MongoDB connection error:"; Sleep 5000;
        Connect false; ConsoleError "MongoDB connection error:"; Sleep 5000;
        Connect false; ConsoleError "MongoDB connection error:"; Sleep 5000;
        Connect true; ConsoleLog "MongoDB connected successfully"].
Proof.
  cbv zeta.
  apply (proj1 (@connectDB_retry_policy DEFAULT_OPTIONS (fun i : nat => (3 <=? i)%nat)
                  initial_state eq_refl eq_refl) 3%nat).
  - reflexivity.
  - intros j Hj. do 3 (destruct j as [|j]; [reflexivity|]). lia.
  - reflexivity.
Defined.

Example initialize_gives_up :
  initialize DEFAULT_OPTIONS (fun _ => false) initial_state
  = (Throw (Error "Max reconnection attempts (5) reached"),
     {| reconnectAttempts := 5; auditLogModel := false;
        created := []; audit_logs := [];
        effects :=
          [Connect false; ConsoleError "MongoDB connection error:"; Sleep 5000;
           Connect false; ConsoleError "MongoDB connection error:"; Sleep 5000;
           Connect false; ConsoleError "MongoDB connection error:"; Sleep 5000;
           Connect false; ConsoleError "MongoDB connection error:"; Sleep 5000;
           Connect false; ConsoleError "MongoDB connection error:"] |}).
Proof. reflexivity. Qed.

(** After five failed attempts with the default options, a sixth attempt
    that fails is fatal at once. *)
Lemma connectDB_counter_survives_failure_witness :
  let st1 := snd (connectDB DEFAULT_OPTIONS (fun _ => false) 0 initial_state) in
  connectDB DEFAULT_OPTIONS (fun _ => false) 5 st1
  = (Throw (Error "Max reconnection attempts (5) reached"),
     set_reconnectAttempts (reconnectAttempts st1 + 1)
       (perform [Connect false; ConsoleError "MongoDB connection error:"] st1)).
Proof.
  cbv zeta.
  apply (@connectDB_counter_survives_failure DEFAULT_OPTIONS (fun _ => false)
           0%nat 5%nat initial_state).
  - exact I.
  - reflexivity.
Defined.

End Supervisor.

(* ===================================================================== *)
(** ** The change stream: restarts, health checks, shutdown               *)
(* ===================================================================== *)

Module Streams.
Import JS ChangeStreamManager Lifecycle.
Local Open Scope string_scope.
#[local] Unset Implicit Arguments.

(** Splitting a trace into what comes first and a given ending. *)
Lemma cons_split {A} (a : A) (rest b s : list A) :
  (rest = b ++ s -> a :: rest = (a :: b) ++ s)%list.
Proof. intros ->. reflexivity. Qed.

Lemma app_split {A} (x rest b s : list A) :
  (rest = b ++ s -> x ++ rest = (x ++ b) ++ s)%list.
Proof. intros ->. now rewrite app_assoc. Qed.

Lemma shift {A} (l1 l2 l3 r : list A) :
  (l1 ++ (l2 ++ l3) = r -> (l1 ++ l2) ++ l3 = r)%list.
Proof. intros <-. now rewrite app_assoc. Qed.

Lemma close_split (h : nat) (b : bool) (s : list action) :
  (Close h b :: s = [] ++ [Close h b] ++ s)%list.
Proof. reflexivity. Qed.

(** Calm stretches of a trace: they count for nothing and leave the open
    streams as they are. *)
Lemma calm_app (a b : list action) : calm (a ++ b)%list = calm a && calm b.
Proof. apply forallb_app. Qed.

Lemma calm_CollMod (names : list string) : calm (map CollMod names) = true.
Proof. induction names; simpl; auto. Qed.

Lemma calm_flat_map (f : string -> list action) (names : list string) :
  (forall name, calm (f name) = true) -> calm (flat_map f names) = true.
Proof.
  intros H. induction names as [|n tl IH]; simpl; [reflexivity|].
  now rewrite calm_app, H, IH.
Qed.

Lemma count_app (p : action -> bool) (a b : list action) :
  count p (a ++ b)%list = (count p a + count p b)%nat.
Proof. unfold count. now rewrite filter_app, length_app. Qed.

Lemma count_cons (p : action -> bool) (a : action) (l : list action) :
  count p (a :: l) = ((if p a then 1 else 0) + count p l)%nat.
Proof. unfold count. simpl. now destruct (p a). Qed.

Lemma calm_counts (acts : list action) :
  calm acts = true ->
  count is_Watch acts = 0%nat /\ count is_SetInterval acts = 0%nat
  /\ count is_SetTimeout acts = 0%nat /\ count is_Exit acts = 0%nat.
Proof.
  unfold count. induction acts as [|a tl IH]; simpl; [auto|].
  intros H. apply andb_true_iff in H. destruct H as [Ha Htl].
  destruct (IH Htl) as [H1 [H2 [H3 H4]]].
  destruct a; simpl in Ha; try discriminate; simpl; auto.
Qed.

Lemma open_streams_app (a b : list action) (live : list nat) :
  open_streams (a ++ b) live = open_streams b (open_streams a live).
Proof.
  revert live. induction a as [|x a IH]; intros live; [reflexivity|].
  destruct x; simpl; try apply IH. destruct closed; apply IH.
Qed.

Lemma open_streams_calm (acts : list action) (live : list nat) :
  calm acts = true -> open_streams acts live = live.
Proof.
  revert live. induction acts as [|x a IH]; intros live H; [reflexivity|].
  simpl in H. apply andb_true_iff in H. destruct H as [Hx Ha].
  destruct x; simpl in Hx; try discriminate; simpl; now apply IH.
Qed.

Ltac calm_warns :=
  intros ?name;
  match goal with
  | |- context [match ?c with Done _ => _ | Fails _ => _ end] => destruct c
  end; reflexivity.

Ltac peel suffix :=
  repeat first
    [ exact (eq_refl : suffix = ([] ++ [] ++ suffix)%list)
    | apply close_split
    | apply cons_split
    | apply app_split ].

Ltac unfold_stream :=
  unfold startChangeStream, catch, bindL, await, emit,
    enablePreAndPostImages, closeCurrent, openStream, startHealthCheck, done, logged;
  cbn [serverStatus replSetInitiate listCollections collMod closeStream watch
       closeConnection changeStream streams trace fst snd].

Section Restarts.
Variable options : ManagerOptions.

Abbreviation subscription h :=
  [Watch h;
   Log "Change stream started. Watching for database changes...";
   On h "change"; On h "error";
   SetInterval (healthCheckInterval options)].

Abbreviation retry :=
  [Err "Error starting change stream:"; SetTimeout (reconnectDelay options)].

(** One call of [startChangeStream], by cases on the answers: the calm
    stretch up to the closing of the stream held, that closing if it is
    reached, and then either the subscription or the retry. *)
Lemma startChangeStream_run (srv : server) (m : manager) :
  let m' := snd (startChangeStream options srv m) in
  fst (startChangeStream options srv m) = Done tt
  /\ exists before closing,
       calm before = true
       /\ (closing = []
           \/ exists h, changeStream m = Some h
                        /\ closing = [Close h (resolves (closeStream srv))])
       /\ if subscribes srv m then
            changeStream m' = Some (streams m)
            /\ streams m' = S (streams m)
            /\ (changeStream m = None -> closing = [])
            /\ (forall h, changeStream m = Some h -> closing = [Close h true])
            /\ trace m' = (trace m ++ before ++ closing ++ subscription (streams m))%list
          else
            changeStream m' = changeStream m
            /\ streams m' = streams m
            /\ trace m' = (trace m ++ before ++ closing ++ retry)%list.
Proof.
  destruct srv as [ss init lc cm cs w cc], m as [cur n tr].
  unfold subscribes. unfold_stream.
  destruct ss as [[|]|e0]; cbn -[String.eqb];
    [ | destruct init as [[]|e1]; cbn -[String.eqb];
        [ | destruct (String.eqb (codeName e1) "AlreadyInitialized"); cbn -[String.eqb] ] | ].
  all: try (destruct lc as [names|e2]; cbn -[String.eqb];
            [ destruct cur as [h|]; cbn -[String.eqb];
              [ destruct cs as [[]|e3]; cbn -[String.eqb] | ];
              try (destruct w as [[]|e4]; cbn -[String.eqb]) | ]).
  all: (split; [reflexivity|]); do 2 eexists.
  all: match goal with
       | |- _ /\ _ /\ _ /\ _ /\ _ /\ _ /\ _ =>
           split; [|split; [|split; [reflexivity|split; [reflexivity|split; [|split]]]]]
       | |- _ /\ _ /\ _ /\ _ /\ _ =>
           split; [|split; [|split; [reflexivity|split; [reflexivity|]]]]
       end.
  all: try (repeat apply shift; cbn [app]; f_equal;
            first [ solve [peel (subscription n)] | solve [peel constr:(retry)] ]).
  all: try (cbn [calm forallb is_Watch is_SetInterval is_SetTimeout is_Close is_Exit orb negb andb];
            rewrite ?calm_app, ?calm_CollMod; rewrite ?calm_flat_map by calm_warns;
            reflexivity).
  all: try (left; reflexivity).
  all: try (right; eexists; split; reflexivity).
  all: try (intros; first [reflexivity | discriminate | congruence]).
Qed.

Lemma subscribes_closes (srv : server) (m : manager) (h : nat) :
  subscribes srv m = true -> changeStream m = Some h ->
  resolves (closeStream srv) = true.
Proof.
  unfold subscribes. intros H Hcur. rewrite Hcur in H.
  destruct (serverStatus srv); [|discriminate].
  destruct (resolves (closeStream srv)); [reflexivity|].
  rewrite andb_false_r in H. discriminate.
Qed.

(** X19.  [startChangeStream] never rejects.  It opens a stream exactly
    when [serverStatus] answers, the replica set is there (or accepts
    [replSetInitiate], or reports [AlreadyInitialized]), [listCollections]
    answers, the stream it holds, if any, closes, and [watch] returns: it
    then holds the new stream, has registered the [change] and the [error]
    listener on it and one health check interval, and has set no timer.  In
    every other case it holds what it held before, has opened nothing, and
    has set exactly one timer, for a new call after [reconnectDelay].  What
    [collMod] answers plays no part. *)
Theorem startChangeStream_outcome (srv : server) (m : manager) :
  let m' := snd (startChangeStream options srv m) in
  fst (startChangeStream options srv m) = Done tt
  /\ exists new,
       trace m' = (trace m ++ new)%list
       /\ if subscribes srv m then
            changeStream m' = Some (streams m)
            /\ In (On (streams m) "change") new /\ In (On (streams m) "error") new
            /\ count is_Watch new = 1%nat
            /\ count is_SetInterval new = 1%nat
            /\ count is_SetTimeout new = 0%nat
          else
            changeStream m' = changeStream m
            /\ In (SetTimeout (reconnectDelay options)) new
            /\ count is_Watch new = 0%nat
            /\ count is_SetInterval new = 0%nat
            /\ count is_SetTimeout new = 1%nat.
Proof.
  destruct (startChangeStream_run srv m) as [Hdone [before [closing [Hq [Hc H]]]]].
  cbv zeta in H |- *. split; [exact Hdone|].
  destruct (calm_counts before Hq) as [Hw [Hi [Ht _]]].
  assert (Hclosing : count is_Watch closing = 0%nat
                     /\ count is_SetInterval closing = 0%nat
                     /\ count is_SetTimeout closing = 0%nat).
  { destruct Hc as [-> | [h [_ ->]]]; repeat split. }
  destruct Hclosing as [Hw' [Hi' Ht']].
  destruct (subscribes srv m).
  - destruct H as [Hcur [_ [_ [_ Htr]]]]. eexists. split; [exact Htr|].
    split; [exact Hcur|].
    rewrite !count_app, Hw, Hi, Ht, Hw', Hi', Ht'.
    split; [|split]; [| |repeat split];
      apply in_or_app; right; apply in_or_app; right; simpl; auto.
  - destruct H as [Hcur [_ Htr]]. eexists. split; [exact Htr|].
    split; [exact Hcur|].
    rewrite !count_app, Hw, Hi, Ht, Hw', Hi', Ht'.
    split; [|repeat split].
    apply in_or_app; right; apply in_or_app; right; simpl; auto.
Qed.

(** X20.  On a server that does not report a replica set the manager sends
    [replSetInitiate].  When the command is accepted it waits 5000 ms
    before it goes on with [listCollections]; when the command is rejected
    with the code name [AlreadyInitialized] it goes on at once, with a
    warning; when it is rejected with any other error nothing more is asked
    of the server and a new call is scheduled. *)
Theorem startChangeStream_standalone (srv : server) (m : manager) :
  serverStatus srv = Done false ->
  let added acts := trace (snd (startChangeStream options srv m)) = (trace m ++ acts)%list in
  let asked := [ServerStatus;
                Err "MongoDB not running as replica set. Attempting to initiate...";
                ReplSetInitiate] in
  match replSetInitiate srv with
  | Done _ =>
      exists rest,
        added (asked ++ [Log "Replica set initiated. Waiting for initialization...";
                         Delay 5000; ListCollections] ++ rest)%list
  | Fails err =>
      if String.eqb (codeName err) "AlreadyInitialized" then
        exists rest,
          added (asked ++ [Warn "Replica set is already initialized. Proceeding...";
                           ListCollections] ++ rest)%list
      else
        added (asked ++ retry)%list
  end.
Proof.
  intros Hss. cbv zeta.
  destruct srv as [ss init lc cm cs w cc], m as [cur n tr].
  cbn [serverStatus replSetInitiate] in *. subst ss.
  unfold_stream.
  destruct init as [[]|e1]; cbn -[String.eqb];
    [ | destruct (String.eqb (codeName e1) "AlreadyInitialized"); cbn -[String.eqb] ].
  3: now repeat apply shift.
  all: destruct lc as [names|e2]; cbn -[String.eqb];
       [ destruct cur as [h|]; cbn -[String.eqb];
         [ destruct cs as [[]|e3]; cbn -[String.eqb] | ];
         try (destruct w as [[]|e4]; cbn -[String.eqb]) | ].
  all: eexists; repeat apply shift; cbn [app]; reflexivity.
Qed.

(** X21.  [enablePreAndPostImages] sends one [collMod] command for every
    collection listed, in listing order and whatever the earlier ones
    answer; each rejected command gives one warning that names the
    collection and the message, and the call resolves all the same.  It
    rejects only when [listCollections] does, having sent no command. *)
Theorem enablePreAndPostImages_skips_failures (srv : server) (m : manager) :
  match listCollections srv with
  | Done names =>
      fst (enablePreAndPostImages srv m) = Done tt
      /\ exists warnings,
           trace (snd (enablePreAndPostImages srv m))
           = (trace m ++ ListCollections :: map CollMod names ++ warnings
                ++ [Log "Pre and post images configuration completed."])%list
           /\ Forall2 (fun name warning =>
                         exists err, collMod srv name = Fails err
                                     /\ warning = Warn ("Skipping " ++ name ++ ": "
                                                        ++ message err))
                      (filter (fun name => negb (resolves (collMod srv name))) names)
                      warnings
  | Fails err => enablePreAndPostImages srv m = (Fails err, logged [ListCollections] m)
  end.
Proof.
  unfold enablePreAndPostImages, bindL, await, emit, logged.
  destruct (listCollections srv) as [names|err]; [|reflexivity].
  cbn [fst snd trace changeStream streams]. split; [reflexivity|].
  eexists. split.
  - repeat apply shift. cbn [app]. reflexivity.
  - induction names as [|n tl IH]; simpl; [constructor|].
    destruct (collMod srv n) as [[]|err] eqn:E; simpl; [exact IH|].
    constructor; [|exact IH]. exists err. split; [exact E | reflexivity].
Qed.

(** One call of [handleChangeStreamError]. *)
Lemma handleChangeStreamError_run (srv : server) (m : manager) :
  let m' := snd (handleChangeStreamError options srv m) in
  fst (handleChangeStreamError options srv m) = Done tt
  /\ changeStream m' = changeStream m
  /\ streams m' = streams m
  /\ exists closing after,
       (closing = []
        \/ exists h, changeStream m = Some h
                     /\ closing = [Close h (resolves (closeStream srv))])
       /\ calm after = true
       /\ trace m'
          = (trace m ++ Err "Change stream error:" :: closing
               ++ SetTimeout (reconnectDelay options) :: after)%list.
Proof.
  destruct srv as [ss init lc cm cs w cc], m as [cur n tr].
  unfold handleChangeStreamError, bindL, emit, logged.
  cbn [closeStream changeStream streams trace fst snd].
  destruct cur as [h|]; [destruct cs as [[]|e]|]; cbn [fst snd changeStream streams trace].
  all: repeat split; do 2 eexists;
    (split; [|split; [|repeat apply shift; cbn [app]; f_equal]]).
  all: try solve [ apply (f_equal (cons _));
                   first [ exact (eq_refl : (_ :: _ :: _ = [_] ++ _ :: _)%list)
                         | exact (eq_refl : (_ :: _ = [] ++ _ :: _)%list) ] ].
  all: try reflexivity.
  all: first [ right; eexists; split; reflexivity | left; reflexivity ].
Qed.

(** One tick, whatever it is: the stream field and the trace afterwards. *)
Lemma fire_run (t : tick) (m : manager) :
  let m' := snd (fire options t m) in
  exists before closing between after,
    calm before = true /\ calm between = true /\ calm after = true
    /\ (closing = []
        \/ exists h, changeStream m = Some h
                     /\ closing = [Close h (resolves (closeStream (server_of t)))])
    /\ ((changeStream m' = Some (streams m)
         /\ streams m' = S (streams m)
         /\ subscribes (server_of t) m = true
         /\ (changeStream m = None -> closing = [])
         /\ (forall h, changeStream m = Some h -> closing = [Close h true])
         /\ trace m' = (trace m ++ before ++ closing ++ subscription (streams m))%list)
        \/ (changeStream m' = changeStream m
            /\ streams m' = streams m
            /\ trace m'
               = (trace m ++ before ++ closing ++ between
                    ++ SetTimeout (reconnectDelay options) :: after)%list)
        \/ (changeStream m' = changeStream m
            /\ streams m' = streams m
            /\ trace m' = (trace m ++ before)%list /\ closing = [])).
Proof.
  assert (Hstart : forall srv m0 pre,
    calm pre = true ->
    changeStream m0 = changeStream m -> streams m0 = streams m ->
    trace m0 = (trace m ++ pre)%list ->
    let m' := snd (startChangeStream options srv m0) in
    exists before closing between after,
      calm before = true /\ calm between = true /\ calm after = true
      /\ (closing = []
          \/ exists h, changeStream m = Some h
                       /\ closing = [Close h (resolves (closeStream srv))])
      /\ ((changeStream m' = Some (streams m)
           /\ streams m' = S (streams m)
           /\ subscribes srv m = true
           /\ (changeStream m = None -> closing = [])
           /\ (forall h, changeStream m = Some h -> closing = [Close h true])
           /\ trace m' = (trace m ++ before ++ closing ++ subscription (streams m))%list)
          \/ (changeStream m' = changeStream m
              /\ streams m' = streams m
              /\ trace m'
                 = (trace m ++ before ++ closing ++ between
                      ++ SetTimeout (reconnectDelay options) :: after)%list)
          \/ (changeStream m' = changeStream m
              /\ streams m' = streams m
              /\ trace m' = (trace m ++ before)%list /\ closing = []))).
  { intros srv m0 pre Hpre Hcur Hn Htr. cbv zeta.
    destruct (startChangeStream_run srv m0) as [_ [before [closing [Hq [Hc H]]]]].
    cbv zeta in H.
    assert (Hsub : subscribes srv m0 = subscribes srv m)
      by (unfold subscribes; now rewrite Hcur).
    rewrite Hsub, Hcur, Hn, Htr in H. rewrite Hcur in Hc.
    exists (pre ++ before)%list, closing, [Err "Error starting change stream:"],
      (@nil action).
    split; [now rewrite calm_app, Hpre, Hq|]. split; [reflexivity|].
    split; [reflexivity|].
    split; [exact Hc|].
    destruct (subscribes srv m).
    - left. destruct H as [H1 [H2 [H3 [H4 H5]]]].
      repeat split; try assumption. now rewrite H5, <- !app_assoc.
    - right. left. destruct H as [H1 [H2 H3]].
      repeat split; try assumption. rewrite H3, <- !app_assoc. reflexivity. }
  destruct t as [srv | readyState srv | srv]; cbn [fire server_of].
  - apply (Hstart srv m []); try reflexivity. now rewrite app_nil_r.
  - unfold healthCheck. destruct (negb (readyState =? 1)%Z).
    + unfold bindL, emit. cbn [fst snd].
      apply (Hstart srv
               (logged [Warn "MongoDB connection lost. Attempting to reconnect..."] m)
               [Warn "MongoDB connection lost. Attempting to reconnect..."]);
        reflexivity.
    + exists [], [], [], []. repeat split; try reflexivity. { now left. }
      right. right. cbn. now rewrite app_nil_r.
  - destruct (handleChangeStreamError_run srv m)
      as [_ [Hcur [Hn [closing [after [Hc [Hq Htr]]]]]]].
    cbv zeta in *.
    exists [Err "Change stream error:"], closing, [], after.
    split; [reflexivity|]. split; [reflexivity|]. split; [exact Hq|]. split; [exact Hc|].
    right. left. repeat split; try assumption.
Qed.

(** X22.  A restart opens a new stream only after the one the manager
    holds has closed, and an error of the stream does not clear the field.
    So while closing that stream fails, every restart, health check and
    stream error leaves the manager with the same stream: none is opened,
    however many times it tries. *)
Theorem restart_blocked_while_close_fails (ticks : list tick) (m : manager) (h : nat) :
  changeStream m = Some h ->
  Forall (fun t => resolves (closeStream (server_of t)) = false) ticks ->
  changeStream (run options ticks m) = Some h
  /\ streams (run options ticks m) = streams m
  /\ count is_Watch (trace (run options ticks m)) = count is_Watch (trace m).
Proof.
  revert m. induction ticks as [|t rest IH]; intros m Hcur Hall; [now repeat split|].
  inversion Hall as [|? ? Ht Hrest]; subst. cbn [run].
  destruct (fire_run t m) as [before [closing [between [after [Hb [Hm [Ha [Hc H]]]]]]]].
  cbv zeta in H.
  assert (Hnot : subscribes (server_of t) m = false).
  { unfold subscribes. rewrite Hcur, Ht.
    destruct (serverStatus (server_of t)); [|reflexivity].
    now rewrite andb_false_r. }
  assert (Hcl : count is_Watch closing = 0%nat).
  { destruct Hc as [-> | [h' [_ ->]]]; reflexivity. }
  destruct (calm_counts before Hb) as [Hwb _].
  destruct (calm_counts between Hm) as [Hwm _].
  destruct (calm_counts after Ha) as [Hwa _].
  destruct H as [[_ [_ [Hsub _]]] | [[H1 [H2 H3]] | [H1 [H2 [H3 _]]]]];
    [congruence | |];
    (destruct (IH (snd (fire options t m))) as [I1 [I2 I3]];
     [congruence | assumption |]);
    rewrite I1, I2, I3, H2, H3; repeat split;
    rewrite ?count_app, ?count_cons, ?Hwb, ?Hcl, ?Hwm, ?Hwa; cbn; lia.
Qed.

(** X23.  Every stream the manager opens comes with a health check
    interval of its own, set with [healthCheckInterval], and no interval is
    ever cleared: after any sequence of restarts, health checks and stream
    errors the number of intervals set equals the number of streams opened
    so far. *)
Theorem health_checks_accumulate (ticks : list tick) :
  let m := run options ticks initial_manager in
  count is_Watch (trace m) = streams m
  /\ count is_SetInterval (trace m) = streams m
  /\ forall a, In a (trace m) -> is_SetInterval a = true ->
               a = SetInterval (healthCheckInterval options).
Proof.
  cbv zeta.
  assert (H : forall m,
             (count is_Watch (trace m) = streams m
              /\ count is_SetInterval (trace m) = streams m
              /\ forall a, In a (trace m) -> is_SetInterval a = true ->
                           a = SetInterval (healthCheckInterval options)) ->
             let m' := run options ticks m in
             count is_Watch (trace m') = streams m'
             /\ count is_SetInterval (trace m') = streams m'
             /\ forall a, In a (trace m') -> is_SetInterval a = true ->
                          a = SetInterval (healthCheckInterval options)).
  { induction ticks as [|t rest IH]; intros m Hm; [exact Hm|].
    cbn [run]. apply IH. destruct Hm as [Hw [Hi Hall]].
    destruct (fire_run t m) as [before [closing [between [after [Hb [Hbt [Ha [Hc H]]]]]]]].
    cbv zeta in H.
    assert (Hcl : count is_Watch closing = 0%nat /\ count is_SetInterval closing = 0%nat
                  /\ forall a, In a closing -> is_SetInterval a = false).
    { destruct Hc as [-> | [h' [_ ->]]];
        (split; [reflexivity|split; [reflexivity|]]).
      - intros a [].
      - intros a [<-|[]]. reflexivity. }
    destruct Hcl as [Hcw [Hci Hcin]].
    destruct (calm_counts before Hb) as [Hwb [Hib _]].
    destruct (calm_counts between Hbt) as [Hwm [Him _]].
    destruct (calm_counts after Ha) as [Hwa [Hia _]].
    assert (Hcalm : forall l a, calm l = true -> In a l -> is_SetInterval a = false).
    { intros l a Hl Hin. unfold calm in Hl. rewrite forallb_forall in Hl.
      specialize (Hl a Hin). destruct a; try reflexivity. discriminate. }
    destruct H as [[_ [H2 [_ [_ [_ H3]]]]] | [[_ [H2 H3]] | [_ [H2 [H3 _]]]]];
      rewrite H2, H3, ?count_app, ?count_cons, ?Hwb, ?Hib, ?Hcw, ?Hci, ?Hwm, ?Him,
        ?Hwa, ?Hia;
      (split; [cbn; lia|]); (split; [cbn; lia|]);
      intros a Hin Hsi;
      repeat (apply in_app_or in Hin; destruct Hin as [Hin|Hin]);
      try (now apply Hall);
      try (rewrite (Hcalm _ a Hb Hin) in Hsi; discriminate);
      try (rewrite (Hcalm _ a Hbt Hin) in Hsi; discriminate);
      try (rewrite (Hcin a Hin) in Hsi; discriminate).
    - cbn in Hin. destruct Hin as [<-|[<-|[<-|[<-|[<-|[]]]]]];
        first [discriminate | reflexivity].
    - destruct Hin as [<-|Hin]; [discriminate|].
      rewrite (Hcalm _ a Ha Hin) in Hsi. discriminate. }
  apply H. repeat split. intros a [].
Qed.

(** The invariant of the open streams is kept by every tick. *)
Lemma fire_tidy (t : tick) (m : manager) :
  (open_streams (trace m) [] = []
   \/ exists h, changeStream m = Some h /\ open_streams (trace m) [] = [h]) ->
  let m' := snd (fire options t m) in
  open_streams (trace m') [] = []
  \/ exists h, changeStream m' = Some h /\ open_streams (trace m') [] = [h].
Proof.
  intros Htidy. cbv zeta.
  destruct (fire_run t m) as [before [closing [between [after [Hb [Hm [Ha [Hc H]]]]]]]].
  cbv zeta in H.
  assert (Hclose : forall h b,
             changeStream m = Some h ->
             open_streams [Close h b] (open_streams (trace m) []) = []
             \/ open_streams [Close h b] (open_streams (trace m) [])
                = open_streams (trace m) []).
  { intros h b Hcur. destruct b; [left | right; reflexivity].
    destruct Htidy as [-> | [h' [Hcur' ->]]]; [reflexivity|].
    assert (h' = h) by congruence. subst h'.
    cbn. now rewrite Nat.eqb_refl. }
  destruct H as [[H1 [_ [_ [Hnone [Hsome H3]]]]] | [[H1 [_ H3]] | [H1 [_ [H3 _]]]]];
    rewrite H3, ?H1, !open_streams_app, ?(open_streams_calm before _ Hb).
  - right. exists (streams m). split; [reflexivity|].
    destruct (changeStream m) as [h|] eqn:Hcur.
    + rewrite (Hsome h eq_refl).
      destruct (Hclose h true eq_refl) as [E|E].
      * now rewrite E.
      * destruct Htidy as [E'|[h' [Hcur' E']]].
        -- now rewrite E'.
        -- assert (h' = h) by congruence. subst h'. rewrite E'. cbn.
           now rewrite Nat.eqb_refl.
    + rewrite (Hnone eq_refl). cbn [open_streams].
      destruct Htidy as [-> | [h' [Hcur' _]]]; [reflexivity | discriminate].
  - change (SetTimeout (reconnectDelay options) :: after)
      with ([SetTimeout (reconnectDelay options)] ++ after)%list.
    rewrite !open_streams_app, (open_streams_calm after _ Ha),
      (open_streams_calm between _ Hm).
    cbn [open_streams].
    destruct Hc as [-> | [h [Hcur ->]]]; [exact Htidy|].
    destruct (Hclose h (resolves (closeStream (server_of t))) Hcur) as [E|E].
    + left. exact E.
    + rewrite E. exact Htidy.
  - exact Htidy.
Qed.

(** X24.  When the calls of the manager do not overlap, at most one stream
    is open at any time, and it is the one the manager holds: a stream is
    opened only after the one held before has been closed. *)
Theorem at_most_one_open_stream (ticks : list tick) :
  let m := run options ticks initial_manager in
  match open_streams (trace m) [] with
  | [] => True
  | [h] => changeStream m = Some h
  | _ => False
  end.
Proof.
  cbv zeta.
  assert (H : forall m,
             (open_streams (trace m) [] = []
              \/ exists h, changeStream m = Some h /\ open_streams (trace m) [] = [h]) ->
             open_streams (trace (run options ticks m)) [] = []
             \/ exists h, changeStream (run options ticks m) = Some h
                          /\ open_streams (trace (run options ticks m)) [] = [h]).
  { induction ticks as [|t rest IH]; intros m Hm; [exact Hm|].
    cbn [run]. apply IH. now apply fire_tidy. }
  destruct (H initial_manager) as [-> | [h [Hcur ->]]]; [now left | exact I | exact Hcur].
Qed.

End Restarts.

(** One call of [gracefulShutdown]. *)
Lemma gracefulShutdown_run (srv : server) (signal : string) (m : manager) :
  let m' := snd (gracefulShutdown srv signal m) in
  fst (gracefulShutdown srv signal m) = Done tt
  /\ changeStream m' = changeStream m
  /\ exists before,
       trace m' = (trace m ++ before ++ [Exit (exit_code srv m)])%list
       /\ count is_Exit before = 0%nat
       /\ count is_CloseConnection before = (if stream_closes srv m then 1 else 0)%nat.
Proof.
  destruct srv as [ss init lc cm cs w cc], m as [cur n tr].
  unfold exit_code, stream_closes, gracefulShutdown, catch, bindL, await, emit,
    closeCurrent, logged.
  cbn [closeStream closeConnection changeStream streams trace fst snd].
  destruct cur as [h|]; [destruct cs as [[]|e1]|]; cbn -[String.append newline];
    try (destruct cc as [[]|e2]; cbn -[String.append newline]).
  all: split; [reflexivity|]; split; [reflexivity|]; eexists;
    (split; [repeat apply shift; cbn [app]; f_equal|]).
  all: try solve [repeat first [ exact (eq_refl : ([Exit _] = [] ++ [Exit _])%list)
                               | apply cons_split ]].
  all: split; reflexivity.
Qed.

(** X25.  [gracefulShutdown] always ends in [process.exit], called once:
    with status 0 when the stream held, if any, and the connection both
    close, with status 1 otherwise.  The connection is closed only if the
    stream closed first: when closing the stream fails the connection is left
    open. *)
Theorem gracefulShutdown_exit (srv : server) (signal : string) (m : manager) :
  let m' := snd (gracefulShutdown srv signal m) in
  exists before,
    trace m' = (trace m ++ before ++ [Exit (exit_code srv m)])%list
    /\ count is_Exit before = 0%nat
    /\ count is_CloseConnection before = (if stream_closes srv m then 1 else 0)%nat
    /\ (exit_code srv m = 0%Z
        <-> stream_closes srv m = true /\ resolves (closeConnection srv) = true).
Proof.
  destruct (gracefulShutdown_run srv signal m) as [_ [_ [before [H1 [H2 H3]]]]].
  exists before. split; [exact H1|]. split; [exact H2|]. split; [exact H3|].
  unfold exit_code.
  destruct (stream_closes srv m), (resolves (closeConnection srv)); cbn;
    split; try discriminate; try (intros [? ?]; discriminate); auto.
Qed.

Lemma setup_registers (event : string) (m : manager) :
  In event process_events -> registered event (snd (setupEventListeners m)) = true.
Proof.
  intros Hin. unfold registered, setupEventListeners, bindL, emit, logged.
  cbn [fst snd trace]. rewrite !existsb_app.
  repeat (destruct Hin as [<-|Hin]; [cbn; now rewrite ?orb_true_r|]).
  destruct Hin.
Qed.

(** A process event that has a listener ends in [process.exit]. *)
Lemma deliver_run (srv : server) (event : string) (m : manager) :
  registered event m = true ->
  In event process_events ->
  exists m' before,
    deliver srv event m = Some m'
    /\ changeStream m' = changeStream m
    /\ trace m' = (trace m ++ before ++ [Exit (exit_code srv m)])%list
    /\ count is_Exit before = 0%nat.
Proof.
  intros Hreg Hin. unfold deliver. fold (registered event m). rewrite Hreg.
  assert (Hplain : forall signal,
             exists m' before,
               Some (snd (gracefulShutdown srv signal m)) = Some m'
               /\ changeStream m' = changeStream m
               /\ trace m' = (trace m ++ before ++ [Exit (exit_code srv m)])%list
               /\ count is_Exit before = 0%nat).
  { intros signal.
    destruct (gracefulShutdown_run srv signal m) as [_ [Hcur [before [H1 [H2 _]]]]].
    eexists. exists before. repeat split; assumption. }
  assert (Hnoted : forall msg signal,
             exists m' before,
               Some (snd ((emit [Err msg] >> gracefulShutdown srv signal) m)) = Some m'
               /\ changeStream m' = changeStream m
               /\ trace m' = (trace m ++ before ++ [Exit (exit_code srv m)])%list
               /\ count is_Exit before = 0%nat).
  { intros msg signal. unfold bindL, emit. cbn [fst snd].
    destruct (gracefulShutdown_run srv signal (logged [Err msg] m))
      as [_ [Hcur [before [H1 [H2 _]]]]].
    cbv zeta in *. eexists. exists (Err msg :: before). split; [reflexivity|].
    split; [exact Hcur|]. split.
    - rewrite H1. cbn [logged trace]. now rewrite <- app_assoc.
    - rewrite count_cons, H2. reflexivity. }
  destruct Hin as [<-|[<-|[<-|[<-|[<-|[]]]]]]; cbn [listener existsb signals];
    first [apply Hplain | apply Hnoted].
Qed.

(** X26.  Once [setupEventListeners] has run, each of SIGINT, SIGTERM,
    SIGQUIT, an uncaught exception and an unhandled rejection runs
    [gracefulShutdown] and ends the process, with the status
    [gracefulShutdown] gives: an uncaught exception exits with status 0
    when the stream and the connection close. *)
Theorem process_events_shut_down (srv : server) (event : string) (m : manager) :
  In event process_events ->
  exists m' before,
    deliver srv event (snd (setupEventListeners m)) = Some m'
    /\ trace m'
       = (trace (snd (setupEventListeners m)) ++ before ++ [Exit (exit_code srv m)])%list
    /\ count is_Exit before = 0%nat.
Proof.
  intros Hin.
  destruct (deliver_run srv event (snd (setupEventListeners m))
              (setup_registers event m Hin) Hin) as [m' [before [H1 [_ [H2 H3]]]]].
  exists m', before. repeat split; assumption.
Qed.

(** X27.  A change event without a namespace (the [invalidate] event of a
    dropped database, for one) ends the process: [processChange] rejects,
    the rejection reaches the [unhandledRejection] listener, and
    [gracefulShutdown] exits, with status 0 when the stream and the
    connection close.  Nothing is written to the audit log. *)
Theorem change_without_namespace_shuts_down
        (trackingConfig : TrackingConfig) (sensitiveFields : list string)
        (options : ManagerOptions) (now : value) (write_ok : bool)
        (srv : server) (cls : objclass) (ev : props_t) (st : state) (m : manager) :
  get_opt (VObject cls ev) "ns" = VUndefined \/ get_opt (VObject cls ev) "ns" = VNull ->
  registered "unhandledRejection" m = true ->
  exists m' before,
    on_change trackingConfig sensitiveFields options now write_ok srv
      (VObject cls ev) st m = (st, Some m')
    /\ trace m' = (trace m ++ before ++ [Exit (exit_code srv m)])%list
    /\ count is_Exit before = 0%nat.
Proof.
  intros Hns Hreg. unfold on_change.
  destruct (@EventProcessor.processChange_no_namespace
              trackingConfig sensitiveFields options now write_ok cls ev st Hns)
    as [msg ->].
  destruct (deliver_run srv "unhandledRejection" m Hreg) as [m' [before [H1 [_ [H2 H3]]]]].
  { cbn. tauto. }
  exists m', before. rewrite H1. repeat split; assumption.
Qed.

Lemma initialize_result (options : ManagerOptions) (connects : nat -> bool) (st : state) :
  initialize options connects st
  = match connectDB options connects 0 st with
    | (Ok _, st') =>
        (Ok tt,
         perform [InitializeAuditLogModel; StartChangeStream; SetupEventListeners]
           (set_auditLogModel st'))
    | (Throw e, st') => (Throw e, st')
    end.
Proof.
  unfold initialize, bindM, ChangeStreamManager.do.
  destruct (connectDB options connects 0 st) as [[[]|e] st']; [|reflexivity].
  cbn. f_equal. apply Supervisor.state_eq; cbn; try reflexivity.
  now rewrite <- !app_assoc.
Qed.

(** X28.  [initialize()] rejects only when [connectDB] does, with its
    error and before any stream is touched.  Once the connection is there
    it resolves, with the audit log model and the five process listeners in
    place and without exiting, whether or not a stream could be opened: in
    the latter case the manager holds what it held, and a new call of
    [startChangeStream] is scheduled. *)
Theorem initialize_streams_outcome
        (options : ManagerOptions) (connects : nat -> bool) (srv : server)
        (st : state) (m : manager) :
  match connectDB options connects 0 st with
  | (Throw e, st') => initialize_streams options connects srv st m = (Throw e, st', m)
  | (Ok _, _) =>
      exists st' m',
        initialize_streams options connects srv st m = (Ok tt, st', m')
        /\ auditLogModel st' = true
        /\ (forall event, In event process_events -> registered event m' = true)
        /\ count is_Exit (trace m') = count is_Exit (trace m)
        /\ if subscribes srv m
           then changeStream m' = Some (streams m)
           else changeStream m' = changeStream m
                /\ In (SetTimeout (reconnectDelay options)) (trace m')
                /\ count is_Watch (trace m') = count is_Watch (trace m)
  end.
Proof.
  unfold initialize_streams. rewrite initialize_result.
  destruct (connectDB options connects 0 st) as [[[]|e] st']; [|reflexivity].
  destruct (startChangeStream_run options srv m) as [Hdone [before [closing [Hq [Hc H]]]]].
  cbv zeta in H. unfold bindL.
  destruct (startChangeStream options srv m) as [r m1]. cbn [fst snd] in *. subst r.
  do 2 eexists. split; [reflexivity|]. split; [reflexivity|]. split.
  { intros event Hin. now apply setup_registers. }
  unfold setupEventListeners, bindL, emit, logged. cbn [changeStream trace snd fst].
  destruct (calm_counts before Hq) as [Hw [_ [_ Hx]]].
  assert (Hcl : count is_Watch closing = 0%nat /\ count is_Exit closing = 0%nat)
    by (destruct Hc as [-> | [h [_ ->]]]; split; reflexivity).
  destruct Hcl as [Hcw Hcx].
  destruct (subscribes srv m).
  - destruct H as [H1 [_ [_ [_ H3]]]]. split; [|exact H1].
    rewrite H3, !count_app, Hx, Hcx. cbn. lia.
  - destruct H as [H1 [_ H3]]. rewrite H3. split; [|split; [exact H1|split]].
    + rewrite !count_app, Hx, Hcx. cbn. lia.
    + rewrite !in_app_iff. cbn. tauto.
    + rewrite !count_app, Hw, Hcw. cbn. lia.
Qed.

(** X29.  The entry point, with its options (10 attempts, 3000 ms): when
    the first ten connection attempts all fail it logs the failure and exits
    with status 1, without the audit log model.  When one of them succeeds
    it does not exit and its last message reports the manager as
    initialized, also when no stream could be opened: the manager then holds
    no stream and a retry is scheduled after 3000 ms. *)
Theorem main_exit (connects : nat -> bool) (srv : server) :
  let st := fst (main connects srv) in
  let m := snd (main connects srv) in
  ((forall j, (j < 10)%nat -> connects j = false) ->
   auditLogModel st = false
   /\ trace m = [Err "Failed to initialize change stream manager:"; Exit 1])
  /\ ((exists j, (j < 10)%nat /\ connects j = true) ->
      auditLogModel st = true
      /\ count is_Exit (trace m) = 0%nat
      /\ (exists before,
             trace m
             = (before ++ [Log "Change stream manager initialized successfully"])%list)
      /\ (subscribes srv initial_manager = false ->
          changeStream m = None /\ count is_Watch (trace m) = 0%nat
          /\ In (SetTimeout 3000) (trace m))).
Proof.
  cbv zeta.
  pose proof (@Supervisor.connectDB_throws_iff (merged OPTIONS) connects 9 0 initial_state
                eq_refl) as Hthrow.
  pose proof (initialize_streams_outcome (merged OPTIONS) connects srv
                initial_state initial_manager) as Hinit.
  unfold main.
  destruct (connectDB (merged OPTIONS) connects 0 initial_state) as [[[]|e] st1] eqn:Hc.
  - destruct Hinit as [st' [m' [-> [Hmodel [_ [Hexit Hsub]]]]]].
    cbn [fst snd logged trace changeStream].
    split.
    + intros Hfail. exfalso. apply Hthrow. intros j Hj. apply Hfail. cbn. lia.
    + intros _. split; [exact Hmodel|]. split; [|split].
      * rewrite count_app, Hexit. reflexivity.
      * eexists. reflexivity.
      * intros Hno. rewrite Hno in Hsub. destruct Hsub as [H1 [H2 H3]].
        split; [exact H1|]. split.
        -- rewrite count_app, H3. reflexivity.
        -- apply in_or_app. left. exact H2.
  - rewrite Hinit. cbn [fst snd logged trace]. split.
    + intros _. split; [|reflexivity].
      pose proof (@Supervisor.connectDB_frame (merged OPTIONS) connects 0 initial_state)
        as [Hframe _].
      rewrite Hc in Hframe. exact Hframe.
    + intros [j [Hj Hok]]. exfalso.
      assert (Hall : forall j, (j <= 9)%nat -> connects (0 + j)%nat = false)
        by (apply Hthrow; exact I).
      specialize (Hall j). cbn in Hall. rewrite Hall in Hok by lia. discriminate.
Qed.

(** X20 at a server that reports the replica set as initialised already. *)
Lemma startChangeStream_standalone_witness :
  exists rest,
    trace (snd (startChangeStream DEFAULT_OPTIONS Samples.already_initialized
                  initial_manager))
    = ([ServerStatus;
        Err "MongoDB not running as replica set. Attempting to initiate...";
        ReplSetInitiate;
        Warn "Replica set is already initialized. Proceeding...";
        ListCollections] ++ rest)%list.
Proof.
  exact (startChangeStream_standalone DEFAULT_OPTIONS Samples.already_initialized
           initial_manager eq_refl).
Defined.

(** X22 at a manager that holds a stream which cannot be closed: an error
    of the stream, the restart and a health check leave it as it was. *)
Lemma restart_blocked_while_close_fails_witness :
  let ticks := [StreamError Samples.close_fails; RestartTimer Samples.close_fails;
                HealthCheck 0 Samples.close_fails] in
  changeStream (run DEFAULT_OPTIONS ticks Samples.watching) = Some 0%nat
  /\ streams (run DEFAULT_OPTIONS ticks Samples.watching) = streams Samples.watching
  /\ count is_Watch (trace (run DEFAULT_OPTIONS ticks Samples.watching))
     = count is_Watch (trace Samples.watching).
Proof.
  cbv zeta.
  apply (restart_blocked_while_close_fails DEFAULT_OPTIONS
           [StreamError Samples.close_fails; RestartTimer Samples.close_fails;
            HealthCheck 0 Samples.close_fails]
           Samples.watching 0%nat).
  - reflexivity.
  - repeat constructor.
Defined.

(** X26 at SIGTERM. *)
Lemma process_events_shut_down_witness :
  exists m' before,
    deliver Samples.replica_set "SIGTERM" (snd (setupEventListeners initial_manager))
    = Some m'
    /\ trace m'
       = (trace (snd (setupEventListeners initial_manager)) ++ before
            ++ [Exit (exit_code Samples.replica_set initial_manager)])%list
    /\ count is_Exit before = 0%nat.
Proof.
  apply (process_events_shut_down Samples.replica_set "SIGTERM" initial_manager).
  right. left. reflexivity.
Defined.

(** X27 at the [invalidate] event, for a manager that is watching. *)
Lemma change_without_namespace_shuts_down_witness :
  exists m' before,
    on_change Samples.readme_tracking Samples.readme_sensitive DEFAULT_OPTIONS
      Samples.a_date true Samples.replica_set
      (VObject PlainObject [("operationType", VStr "invalidate")])
      Samples.ready Samples.watching
    = (Samples.ready, Some m')
    /\ trace m'
       = (trace Samples.watching ++ before
            ++ [Exit (exit_code Samples.replica_set Samples.watching)])%list
    /\ count is_Exit before = 0%nat.
Proof.
  apply (change_without_namespace_shuts_down
           Samples.readme_tracking Samples.readme_sensitive DEFAULT_OPTIONS
           Samples.a_date true Samples.replica_set
           PlainObject [("operationType", VStr "invalidate")]
           Samples.ready Samples.watching).
  - left. reflexivity.
  - reflexivity.
Defined.

End Streams.
